(** * Real-time audio capture: voice-activity-gated buffering

    A shallow embedding of the class [RealTimeAudioCapture] of the
    real-time transcription front end: the per-frame path
    ([calculateAudioLevel], [performVAD], [processAudioChunk]), the flush
    ([sendBufferedAudio]) and the lifecycle operations ([stopRecording],
    [cleanup]).

    JavaScript numbers are IEEE 754 binary64 values, and so are Rocq's
    primitive floats: sums, products, quotients, square roots and
    comparisons below are the machine operations, NaN and infinities
    included.  Counters and lengths ([bufferSize], [silenceFrames], ...)
    hold integers far below 2^53, where binary64 arithmetic is exact; they
    are natural numbers here. *)

From Stdlib Require Import String.
From Stdlib Require Import ZArith List Bool Arith Lia.
From Stdlib Require Import Floats.
Import ListNotations.

Set Warnings "-inexact-float,-abstract-large-number".
Set Implicit Arguments.

(** ** The host's number functions *)

Module Js.
Local Open Scope float_scope.

(** [Math.max] and [Math.min] of two numbers: NaN if either argument is
    NaN, and [+0] is larger than [-0]. *)
Definition Math_max (a b : float) : float :=
  if is_nan a || is_nan b then nan
  else if a <? b then b
  else if b <? a then a
  else if get_sign a then b else a.

Definition Math_min (a b : float) : float :=
  if is_nan a || is_nan b then nan
  else if a <? b then a
  else if b <? a then b
  else if get_sign a then a else b.

(** The [length] of an array as a number. *)
Definition of_length (n : nat) : float :=
  of_uint63 (Uint63.of_Z (Z.of_nat n)).

(** [Math.floor] of a number used as an array index: the index it denotes
    when it is a non-negative finite number, nothing otherwise. *)
Definition floor_index (x : float) : option nat :=
  match Prim2SF x with
  | S754_zero _ => Some O
  | S754_finite false m e =>
      Some (Z.to_nat (match e with
                      | Zneg p => Z.shiftr (Zpos m) (Zpos p)
                      | _ => Z.shiftl (Zpos m) e
                      end))
  | _ => None
  end.

(** [Math.log10] is implementation-approximated in ECMAScript; the
    embedding of the capture class takes it as a parameter.  [log10_ref] is
    a reference implementation used to run the model on concrete frames:
    the special cases are ECMAScript's, the finite case is an argument
    reduction by [frexp] followed by the series of [atanh]. *)
Definition of_Z (z : Z) : float :=
  match z with
  | Z0 => 0
  | Zpos _ => of_uint63 (Uint63.of_Z z)
  | Zneg p => - of_uint63 (Uint63.of_Z (Zpos p))
  end.

Definition ln2 : float := 0x1.62e42fefa39efp-1.
Definition ln10 : float := 0x1.26bb1bbb55516p+1.
Definition sqrt_half : float := 0x1.6a09e667f3bcdp-1.

Fixpoint atanh_tail (k : nat) (s2 d : float) : float :=
  match k with
  | O => 1 / d
  | S k' => 1 / d + s2 * atanh_tail k' s2 (d + 2)
  end.

Definition log10_ref (x : float) : float :=
  if is_nan x then nan
  else if x <? 0 then nan
  else if x =? 0 then neg_infinity
  else if x =? infinity then infinity
  else
    let '(m, e) := Z.frexp x in
    let '(m, e) := if m <? sqrt_half then (m * 2, (e - 1)%Z) else (m, e) in
    let s := (m - 1) / (m + 1) in
    let lnm := 2 * s * atanh_tail 14 (s * s) 1 in
    (of_Z e * ln2 + lnm) / ln10.

(** [Array.prototype.sort] with the comparator [(a, b) => a - b], as a
    stable insertion sort: an element moves in front of the first element
    the comparator puts after it.  A comparator result that is NaN counts
    as zero, as ECMAScript prescribes. *)
Definition compare_numbers (a b : float) : float := a - b.

Fixpoint insert_sorted (x : float) (l : list float) : list float :=
  match l with
  | [] => [x]
  | y :: l' =>
      if 0 <? compare_numbers y x then x :: y :: l' else y :: insert_sorted x l'
  end.

Definition sort_numbers (l : list float) : list float :=
  fold_left (fun acc x => insert_sorted x acc) l [].

(** [arr.slice(-n)]: the last [n] elements, all of them when there are
    fewer. *)
Definition slice_last (A : Type) (n : nat) (l : list A) : list A :=
  skipn (length l - n) l.

End Js.
Import Js.

(** ** Data model *)

Definition Float32Array := list float.
Definition Error := string.
Definition HostObject := nat.

Record AudioCaptureOptions := {
  sampleRate : float;
  channels : float;
  bitDepth : float;
  chunkSize : float;
  vadThreshold : float
}.

Record VADResult := {
  isSpeech : bool;
  confidence : float;
  energy : float
}.

(** A call either returns or throws. *)
Inductive outcome (A : Type) : Type :=
| Returned (a : A)
| Thrown (e : Error).
Arguments Thrown {A} e.

(** A listener registered by a client: it receives a value and returns or
    throws.  Listeners that call back into the capture object are outside
    the model. *)
Definition Listener (A : Type) := A -> outcome unit.

Inductive Resource := Processor | Analyser | Microphone | AudioContext | Stream.

(** What the object hands to the outside world, in order: the values passed
    at the four listener call sites [this.onX?.(v)] (recorded whether or not
    a listener is registered; with none, [?.] drops the value) and the
    release of a device resource. *)
Inductive Event :=
| AudioLevelEvent (level : float)
| VADEvent (result : VADResult)
| AudioChunkEvent (chunk : Float32Array)
| ErrorEvent (error : Error)
| Released (r : Resource).

(** The fields of the class, plus the [trace] of events so far. *)
Record RealTimeAudioCapture := {
  stream : option HostObject;
  audioContext : option HostObject;
  processor : option HostObject;
  analyser : option HostObject;
  microphone : option HostObject;
  isRecording : bool;
  audioBuffer : list Float32Array;
  bufferSize : nat;
  maxBufferSize : nat;
  energyHistory : list float;
  energyHistorySize : nat;
  silenceFrames : nat;
  speechFrames : nat;
  minSpeechFrames : nat;
  minSilenceFrames : nat;
  backgroundNoise : float;
  onAudioChunk : option (Listener Float32Array);
  onVAD : option (Listener VADResult);
  onError : option (Listener Error);
  onAudioLevel : option (Listener float);
  options : AudioCaptureOptions;
  trace : list Event
}.

Definition defaultOptions : AudioCaptureOptions :=
  {| sampleRate := 16000; channels := 1; bitDepth := 16; chunkSize := 512;
     vadThreshold := 0.001 |}.

(** [new RealTimeAudioCapture(options)]: the field initialisers. *)
Definition new (opts : AudioCaptureOptions) : RealTimeAudioCapture :=
  {| stream := None; audioContext := None; processor := None; analyser := None;
     microphone := None;
     isRecording := false;
     audioBuffer := [];
     bufferSize := 0;
     maxBufferSize := 80000;
     energyHistory := [];
     energyHistorySize := 20;
     silenceFrames := 0;
     speechFrames := 0;
     minSpeechFrames := 3;
     minSilenceFrames := 30;
     backgroundNoise := (-6)%float;
     onAudioChunk := None; onVAD := None; onError := None; onAudioLevel := None;
     options := opts;
     trace := [] |}.

(** Field assignments. *)
Definition set_stream (v : option HostObject) (c : RealTimeAudioCapture) : RealTimeAudioCapture :=
  {| stream := v; audioContext := audioContext c; processor := processor c;
     analyser := analyser c; microphone := microphone c; isRecording := isRecording c;
     audioBuffer := audioBuffer c; bufferSize := bufferSize c;
     maxBufferSize := maxBufferSize c; energyHistory := energyHistory c;
     energyHistorySize := energyHistorySize c; silenceFrames := silenceFrames c;
     speechFrames := speechFrames c; minSpeechFrames := minSpeechFrames c;
     minSilenceFrames := minSilenceFrames c; backgroundNoise := backgroundNoise c;
     onAudioChunk := onAudioChunk c; onVAD := onVAD c; onError := onError c;
     onAudioLevel := onAudioLevel c; options := options c; trace := trace c |}.

Definition set_audioContext (v : option HostObject) (c : RealTimeAudioCapture) : RealTimeAudioCapture :=
  {| stream := stream c; audioContext := v; processor := processor c;
     analyser := analyser c; microphone := microphone c; isRecording := isRecording c;
     audioBuffer := audioBuffer c; bufferSize := bufferSize c;
     maxBufferSize := maxBufferSize c; energyHistory := energyHistory c;
     energyHistorySize := energyHistorySize c; silenceFrames := silenceFrames c;
     speechFrames := speechFrames c; minSpeechFrames := minSpeechFrames c;
     minSilenceFrames := minSilenceFrames c; backgroundNoise := backgroundNoise c;
     onAudioChunk := onAudioChunk c; onVAD := onVAD c; onError := onError c;
     onAudioLevel := onAudioLevel c; options := options c; trace := trace c |}.

Definition set_processor (v : option HostObject) (c : RealTimeAudioCapture) : RealTimeAudioCapture :=
  {| stream := stream c; audioContext := audioContext c; processor := v;
     analyser := analyser c; microphone := microphone c; isRecording := isRecording c;
     audioBuffer := audioBuffer c; bufferSize := bufferSize c;
     maxBufferSize := maxBufferSize c; energyHistory := energyHistory c;
     energyHistorySize := energyHistorySize c; silenceFrames := silenceFrames c;
     speechFrames := speechFrames c; minSpeechFrames := minSpeechFrames c;
     minSilenceFrames := minSilenceFrames c; backgroundNoise := backgroundNoise c;
     onAudioChunk := onAudioChunk c; onVAD := onVAD c; onError := onError c;
     onAudioLevel := onAudioLevel c; options := options c; trace := trace c |}.

Definition set_analyser (v : option HostObject) (c : RealTimeAudioCapture) : RealTimeAudioCapture :=
  {| stream := stream c; audioContext := audioContext c; processor := processor c;
     analyser := v; microphone := microphone c; isRecording := isRecording c;
     audioBuffer := audioBuffer c; bufferSize := bufferSize c;
     maxBufferSize := maxBufferSize c; energyHistory := energyHistory c;
     energyHistorySize := energyHistorySize c; silenceFrames := silenceFrames c;
     speechFrames := speechFrames c; minSpeechFrames := minSpeechFrames c;
     minSilenceFrames := minSilenceFrames c; backgroundNoise := backgroundNoise c;
     onAudioChunk := onAudioChunk c; onVAD := onVAD c; onError := onError c;
     onAudioLevel := onAudioLevel c; options := options c; trace := trace c |}.

Definition set_microphone (v : option HostObject) (c : RealTimeAudioCapture) : RealTimeAudioCapture :=
  {| stream := stream c; audioContext := audioContext c; processor := processor c;
     analyser := analyser c; microphone := v; isRecording := isRecording c;
     audioBuffer := audioBuffer c; bufferSize := bufferSize c;
     maxBufferSize := maxBufferSize c; energyHistory := energyHistory c;
     energyHistorySize := energyHistorySize c; silenceFrames := silenceFrames c;
     speechFrames := speechFrames c; minSpeechFrames := minSpeechFrames c;
     minSilenceFrames := minSilenceFrames c; backgroundNoise := backgroundNoise c;
     onAudioChunk := onAudioChunk c; onVAD := onVAD c; onError := onError c;
     onAudioLevel := onAudioLevel c; options := options c; trace := trace c |}.

Definition set_isRecording (v : bool) (c : RealTimeAudioCapture) : RealTimeAudioCapture :=
  {| stream := stream c; audioContext := audioContext c; processor := processor c;
     analyser := analyser c; microphone := microphone c; isRecording := v;
     audioBuffer := audioBuffer c; bufferSize := bufferSize c;
     maxBufferSize := maxBufferSize c; energyHistory := energyHistory c;
     energyHistorySize := energyHistorySize c; silenceFrames := silenceFrames c;
     speechFrames := speechFrames c; minSpeechFrames := minSpeechFrames c;
     minSilenceFrames := minSilenceFrames c; backgroundNoise := backgroundNoise c;
     onAudioChunk := onAudioChunk c; onVAD := onVAD c; onError := onError c;
     onAudioLevel := onAudioLevel c; options := options c; trace := trace c |}.

Definition set_audioBuffer (v : list Float32Array) (c : RealTimeAudioCapture) : RealTimeAudioCapture :=
  {| stream := stream c; audioContext := audioContext c; processor := processor c;
     analyser := analyser c; microphone := microphone c; isRecording := isRecording c;
     audioBuffer := v; bufferSize := bufferSize c; maxBufferSize := maxBufferSize c;
     energyHistory := energyHistory c; energyHistorySize := energyHistorySize c;
     silenceFrames := silenceFrames c; speechFrames := speechFrames c;
     minSpeechFrames := minSpeechFrames c; minSilenceFrames := minSilenceFrames c;
     backgroundNoise := backgroundNoise c; onAudioChunk := onAudioChunk c;
     onVAD := onVAD c; onError := onError c; onAudioLevel := onAudioLevel c;
     options := options c; trace := trace c |}.

Definition set_bufferSize (v : nat) (c : RealTimeAudioCapture) : RealTimeAudioCapture :=
  {| stream := stream c; audioContext := audioContext c; processor := processor c;
     analyser := analyser c; microphone := microphone c; isRecording := isRecording c;
     audioBuffer := audioBuffer c; bufferSize := v; maxBufferSize := maxBufferSize c;
     energyHistory := energyHistory c; energyHistorySize := energyHistorySize c;
     silenceFrames := silenceFrames c; speechFrames := speechFrames c;
     minSpeechFrames := minSpeechFrames c; minSilenceFrames := minSilenceFrames c;
     backgroundNoise := backgroundNoise c; onAudioChunk := onAudioChunk c;
     onVAD := onVAD c; onError := onError c; onAudioLevel := onAudioLevel c;
     options := options c; trace := trace c |}.

Definition set_energyHistory (v : list float) (c : RealTimeAudioCapture) : RealTimeAudioCapture :=
  {| stream := stream c; audioContext := audioContext c; processor := processor c;
     analyser := analyser c; microphone := microphone c; isRecording := isRecording c;
     audioBuffer := audioBuffer c; bufferSize := bufferSize c;
     maxBufferSize := maxBufferSize c; energyHistory := v;
     energyHistorySize := energyHistorySize c; silenceFrames := silenceFrames c;
     speechFrames := speechFrames c; minSpeechFrames := minSpeechFrames c;
     minSilenceFrames := minSilenceFrames c; backgroundNoise := backgroundNoise c;
     onAudioChunk := onAudioChunk c; onVAD := onVAD c; onError := onError c;
     onAudioLevel := onAudioLevel c; options := options c; trace := trace c |}.

Definition set_silenceFrames (v : nat) (c : RealTimeAudioCapture) : RealTimeAudioCapture :=
  {| stream := stream c; audioContext := audioContext c; processor := processor c;
     analyser := analyser c; microphone := microphone c; isRecording := isRecording c;
     audioBuffer := audioBuffer c; bufferSize := bufferSize c;
     maxBufferSize := maxBufferSize c; energyHistory := energyHistory c;
     energyHistorySize := energyHistorySize c; silenceFrames := v;
     speechFrames := speechFrames c; minSpeechFrames := minSpeechFrames c;
     minSilenceFrames := minSilenceFrames c; backgroundNoise := backgroundNoise c;
     onAudioChunk := onAudioChunk c; onVAD := onVAD c; onError := onError c;
     onAudioLevel := onAudioLevel c; options := options c; trace := trace c |}.

Definition set_speechFrames (v : nat) (c : RealTimeAudioCapture) : RealTimeAudioCapture :=
  {| stream := stream c; audioContext := audioContext c; processor := processor c;
     analyser := analyser c; microphone := microphone c; isRecording := isRecording c;
     audioBuffer := audioBuffer c; bufferSize := bufferSize c;
     maxBufferSize := maxBufferSize c; energyHistory := energyHistory c;
     energyHistorySize := energyHistorySize c; silenceFrames := silenceFrames c;
     speechFrames := v; minSpeechFrames := minSpeechFrames c;
     minSilenceFrames := minSilenceFrames c; backgroundNoise := backgroundNoise c;
     onAudioChunk := onAudioChunk c; onVAD := onVAD c; onError := onError c;
     onAudioLevel := onAudioLevel c; options := options c; trace := trace c |}.

Definition set_backgroundNoise (v : float) (c : RealTimeAudioCapture) : RealTimeAudioCapture :=
  {| stream := stream c; audioContext := audioContext c; processor := processor c;
     analyser := analyser c; microphone := microphone c; isRecording := isRecording c;
     audioBuffer := audioBuffer c; bufferSize := bufferSize c;
     maxBufferSize := maxBufferSize c; energyHistory := energyHistory c;
     energyHistorySize := energyHistorySize c; silenceFrames := silenceFrames c;
     speechFrames := speechFrames c; minSpeechFrames := minSpeechFrames c;
     minSilenceFrames := minSilenceFrames c; backgroundNoise := v;
     onAudioChunk := onAudioChunk c; onVAD := onVAD c; onError := onError c;
     onAudioLevel := onAudioLevel c; options := options c; trace := trace c |}.

Definition set_onAudioChunk (v : option (Listener Float32Array)) (c : RealTimeAudioCapture) : RealTimeAudioCapture :=
  {| stream := stream c; audioContext := audioContext c; processor := processor c;
     analyser := analyser c; microphone := microphone c; isRecording := isRecording c;
     audioBuffer := audioBuffer c; bufferSize := bufferSize c;
     maxBufferSize := maxBufferSize c; energyHistory := energyHistory c;
     energyHistorySize := energyHistorySize c; silenceFrames := silenceFrames c;
     speechFrames := speechFrames c; minSpeechFrames := minSpeechFrames c;
     minSilenceFrames := minSilenceFrames c; backgroundNoise := backgroundNoise c;
     onAudioChunk := v; onVAD := onVAD c; onError := onError c;
     onAudioLevel := onAudioLevel c; options := options c; trace := trace c |}.

Definition set_onVAD (v : option (Listener VADResult)) (c : RealTimeAudioCapture) : RealTimeAudioCapture :=
  {| stream := stream c; audioContext := audioContext c; processor := processor c;
     analyser := analyser c; microphone := microphone c; isRecording := isRecording c;
     audioBuffer := audioBuffer c; bufferSize := bufferSize c;
     maxBufferSize := maxBufferSize c; energyHistory := energyHistory c;
     energyHistorySize := energyHistorySize c; silenceFrames := silenceFrames c;
     speechFrames := speechFrames c; minSpeechFrames := minSpeechFrames c;
     minSilenceFrames := minSilenceFrames c; backgroundNoise := backgroundNoise c;
     onAudioChunk := onAudioChunk c; onVAD := v; onError := onError c;
     onAudioLevel := onAudioLevel c; options := options c; trace := trace c |}.

Definition set_onError (v : option (Listener Error)) (c : RealTimeAudioCapture) : RealTimeAudioCapture :=
  {| stream := stream c; audioContext := audioContext c; processor := processor c;
     analyser := analyser c; microphone := microphone c; isRecording := isRecording c;
     audioBuffer := audioBuffer c; bufferSize := bufferSize c;
     maxBufferSize := maxBufferSize c; energyHistory := energyHistory c;
     energyHistorySize := energyHistorySize c; silenceFrames := silenceFrames c;
     speechFrames := speechFrames c; minSpeechFrames := minSpeechFrames c;
     minSilenceFrames := minSilenceFrames c; backgroundNoise := backgroundNoise c;
     onAudioChunk := onAudioChunk c; onVAD := onVAD c; onError := v;
     onAudioLevel := onAudioLevel c; options := options c; trace := trace c |}.

Definition set_onAudioLevel (v : option (Listener float)) (c : RealTimeAudioCapture) : RealTimeAudioCapture :=
  {| stream := stream c; audioContext := audioContext c; processor := processor c;
     analyser := analyser c; microphone := microphone c; isRecording := isRecording c;
     audioBuffer := audioBuffer c; bufferSize := bufferSize c;
     maxBufferSize := maxBufferSize c; energyHistory := energyHistory c;
     energyHistorySize := energyHistorySize c; silenceFrames := silenceFrames c;
     speechFrames := speechFrames c; minSpeechFrames := minSpeechFrames c;
     minSilenceFrames := minSilenceFrames c; backgroundNoise := backgroundNoise c;
     onAudioChunk := onAudioChunk c; onVAD := onVAD c; onError := onError c;
     onAudioLevel := v; options := options c; trace := trace c |}.

Definition set_trace (v : list Event) (c : RealTimeAudioCapture) : RealTimeAudioCapture :=
  {| stream := stream c; audioContext := audioContext c; processor := processor c;
     analyser := analyser c; microphone := microphone c; isRecording := isRecording c;
     audioBuffer := audioBuffer c; bufferSize := bufferSize c;
     maxBufferSize := maxBufferSize c; energyHistory := energyHistory c;
     energyHistorySize := energyHistorySize c; silenceFrames := silenceFrames c;
     speechFrames := speechFrames c; minSpeechFrames := minSpeechFrames c;
     minSilenceFrames := minSilenceFrames c; backgroundNoise := backgroundNoise c;
     onAudioChunk := onAudioChunk c; onVAD := onVAD c; onError := onError c;
     onAudioLevel := onAudioLevel c; options := options c; trace := v |}.

(** ** Methods: state and exceptions

    A method takes the object to an outcome and the object after the call;
    a thrown exception keeps the assignments made before it. *)

Definition M (A : Type) := RealTimeAudioCapture -> outcome A * RealTimeAudioCapture.

Definition ret (A : Type) (a : A) : M A := fun c => (Returned a, c).

Definition bind (A B : Type) (m : M A) (k : A -> M B) : M B :=
  fun c => match m c with
           | (Returned a, c') => k a c'
           | (Thrown e, c') => (Thrown e, c')
           end.

Definition get : M RealTimeAudioCapture := fun c => (Returned c, c).

Definition modify (f : RealTimeAudioCapture -> RealTimeAudioCapture) : M unit :=
  fun c => (Returned tt, f c).

Definition lift (A : Type) (r : outcome A) : M A := fun c => (r, c).

Notation "x <- m ;; k" := (bind m (fun x => k))
  (at level 61, m at next level, right associativity).
Notation "m ;; k" := (bind m (fun _ => k))
  (at level 61, right associativity).

(** [this.onX?.(v)]: the value is handed over, and the listener, when one
    is registered, runs. *)
Definition call (A : Type) (listener : option (Listener A)) (v : A) : outcome unit :=
  match listener with
  | Some f => f v
  | None => Returned tt
  end.

Definition notify (A : Type) (listener : RealTimeAudioCapture -> option (Listener A))
    (ev : A -> Event) (v : A) : M unit :=
  fun c => (call (listener c) v, set_trace (trace c ++ [ev v]) c).

Definition setOnAudioChunk (callback : Listener Float32Array) : M unit :=
  modify (set_onAudioChunk (Some callback)).
Definition setOnVAD (callback : Listener VADResult) : M unit :=
  modify (set_onVAD (Some callback)).
Definition setOnError (callback : Listener Error) : M unit :=
  modify (set_onError (Some callback)).
Definition setOnAudioLevel (callback : Listener float) : M unit :=
  modify (set_onAudioLevel (Some callback)).

(** ** Audio level and voice activity detection *)

Definition calculateAudioLevel (data : Float32Array) : float :=
  let sum := fold_left (fun sum x => sum + abs x)%float data 0%float in
  let average := (sum / of_length (length data))%float in
  Math_min (average * 100)%float 100%float.

Section VAD.

(** [Math.log10]. *)
Variable log10 : float -> float.

(** The log-domain RMS energy of a frame. *)
Definition frameEnergy (data : Float32Array) : float :=
  let sum := fold_left (fun sum x => sum + x * x)%float data 0%float in
  let rms := sqrt (sum / of_length (length data))%float in
  log10 (rms + 1e-10)%float.

(** [sortedHistory[Math.floor(sortedHistory.length * 0.1)]].  The index is
    below the length of every non-empty array; a read out of range would
    give [undefined], which arithmetic turns into NaN. *)
Definition percentile10 (history : list float) : float :=
  let sortedHistory := sort_numbers history in
  match floor_index (of_length (length sortedHistory) * 0.1)%float with
  | Some i => nth i sortedHistory nan
  | None => nan
  end.

Definition mean (frames : list float) : float :=
  (fold_left (fun a b => a + b) frames 0 / of_length (length frames))%float.

Definition performVAD (data : Float32Array) : M VADResult :=
  fun c =>
    let energy := frameEnergy data in
    (* Update background noise estimate *)
    let c := if 10 <? length (energyHistory c)
             then set_backgroundNoise (percentile10 (energyHistory c)) c
             else c in
    (* Update energy history for smoothing *)
    let c := set_energyHistory (energyHistory c ++ [energy]) c in
    let c := if energyHistorySize c <? length (energyHistory c)
             then set_energyHistory (tl (energyHistory c)) c
             else c in
    (* Calculate recent energy trend (last 5 frames) *)
    let recentFrames := slice_last 5 (energyHistory c) in
    let recentAvg := mean recentFrames in
    (* Adaptive threshold based on background noise *)
    let adaptiveThreshold := (backgroundNoise c + 0.5)%float in
    let fallbackThreshold := log10 (vadThreshold (options c)) in
    let threshold := Math_max adaptiveThreshold fallbackThreshold in
    (* Multi-criteria VAD *)
    let energyAboveThreshold := (threshold <? recentAvg)%float in
    let significantEnergyIncrease := (backgroundNoise c + 0.3 <? energy)%float in
    let isSpeech := energyAboveThreshold || significantEnergyIncrease in
    (* Calculate confidence based on how much above threshold *)
    let energyDiff := (recentAvg - threshold)%float in
    let confidence := Math_min (Math_max (energyDiff / 2)%float 0%float) 1%float in
    (Returned {| isSpeech := isSpeech; confidence := confidence; energy := recentAvg |}, c).

(** ** Buffering and flush *)

(** [target.set(source, offset)] on typed arrays: a RangeError when the
    source does not fit. *)
Definition typed_set (target source : Float32Array) (offset : nat)
  : outcome Float32Array :=
  if offset + length source <=? length target
  then Returned (firstn offset target ++ source
                 ++ skipn (offset + length source) target)
  else Thrown "RangeError: offset is out of bounds"%string.

(** The loop [for (const chunk of this.audioBuffer)] of
    [sendBufferedAudio]. *)
Fixpoint copy_chunks (chunks : list Float32Array) (concatenated : Float32Array)
    (offset : nat) : outcome Float32Array :=
  match chunks with
  | [] => Returned concatenated
  | chunk :: rest =>
      match typed_set concatenated chunk offset with
      | Returned concatenated' => copy_chunks rest concatenated' (offset + length chunk)
      | Thrown e => Thrown e
      end
  end.

Definition sendBufferedAudio : M unit :=
  c <- get ;;
  match audioBuffer c with
  | [] => ret tt
  | _ =>
      (* Concatenate all buffered chunks *)
      let totalLength :=
        fold_left (fun acc chunk => acc + length chunk) (audioBuffer c) 0 in
      concatenated <- lift (copy_chunks (audioBuffer c) (repeat 0%float totalLength) 0) ;;
      (* Send to callback *)
      notify onAudioChunk AudioChunkEvent concatenated ;;
      (* Clear buffer *)
      modify (set_audioBuffer []) ;;
      modify (set_bufferSize 0)
  end.

(** [processAudioChunk], first half: level, detection and the two
    listeners.  (The sampled debug [console.log] between the halves changes
    nothing and is left out.) *)
Definition analyseChunk (inputData : Float32Array) : M VADResult :=
  let audioLevel := calculateAudioLevel inputData in
  notify onAudioLevel AudioLevelEvent audioLevel ;;
  vadResult <- performVAD inputData ;;
  notify onVAD VADEvent vadResult ;;
  ret vadResult.

(** [processAudioChunk], second half: the [if (vadResult.isSpeech)]
    statement. *)
Definition bufferChunk (inputData : Float32Array) (vadResult : VADResult) : M unit :=
  if isSpeech vadResult then
    modify (fun c => set_audioBuffer (audioBuffer c ++ [inputData]) c) ;;
    modify (fun c => set_bufferSize (bufferSize c + length inputData) c) ;;
    modify (fun c => set_speechFrames (S (speechFrames c)) c) ;;
    modify (set_silenceFrames 0) ;;
    c <- get ;;
    (* Send chunk when buffer is large enough *)
    if maxBufferSize c <=? bufferSize c then sendBufferedAudio else ret tt
  else
    modify (fun c => set_silenceFrames (S (silenceFrames c)) c) ;;
    modify (set_speechFrames 0) ;;
    c <- get ;;
    (* Send any buffered audio if we've detected silence for a while *)
    if (minSilenceFrames c <=? silenceFrames c) && (0 <? length (audioBuffer c))
    then sendBufferedAudio else ret tt.

Definition processAudioChunk (inputData : Float32Array) : M unit :=
  vadResult <- analyseChunk inputData ;;
  bufferChunk inputData vadResult.

(** The [onaudioprocess] handler installed by [initialize]. *)
Definition onaudioprocess (inputData : Float32Array) : M unit :=
  c <- get ;;
  if negb (isRecording c) then ret tt
  else processAudioChunk inputData.

(** The host delivers frames one after the other; an exception that leaves
    the handler is reported by the host and the next frame is delivered all
    the same. *)
Fixpoint deliver (frames : list Float32Array) (c : RealTimeAudioCapture)
  : RealTimeAudioCapture :=
  match frames with
  | [] => c
  | inputData :: rest => deliver rest (snd (onaudioprocess inputData c))
  end.

(** ** Stop and cleanup *)

Definition stopRecording : M unit :=
  modify (set_isRecording false) ;;
  c <- get ;;
  (* Send any remaining buffered audio *)
  if 0 <? length (audioBuffer c) then sendBufferedAudio else ret tt.

(** [if (this.x) { this.x.disconnect(); this.x = null; }] and its
    variants with [close()] and [stop()]. *)
Definition release (field : RealTimeAudioCapture -> option HostObject)
    (clear : RealTimeAudioCapture -> RealTimeAudioCapture) (r : Resource) : M unit :=
  c <- get ;;
  match field c with
  | Some _ => modify (fun c => set_trace (trace c ++ [Released r]) c) ;; modify clear
  | None => ret tt
  end.

Definition cleanup : M unit :=
  stopRecording ;;
  release processor (set_processor None) Processor ;;
  release analyser (set_analyser None) Analyser ;;
  release microphone (set_microphone None) Microphone ;;
  release audioContext (set_audioContext None) AudioContext ;;
  release stream (set_stream None) Stream.

End VAD.

(** The VAD fed frame after frame, as [processAudioChunk] does once per
    delivered frame. *)
Fixpoint feedVAD (log10 : float -> float) (frames : list Float32Array)
    (c : RealTimeAudioCapture) : RealTimeAudioCapture :=
  match frames with
  | [] => c
  | data :: rest => feedVAD log10 rest (snd (performVAD log10 data c))
  end.

(** ** Vocabulary of the properties *)

(** The events added between two states of the object. *)
Definition new_events (c c' : RealTimeAudioCapture) : list Event :=
  skipn (length (trace c)) (trace c').

(** The Segments, the VAD results, the errors and the releases of a trace. *)
Definition segments (t : list Event) : list Float32Array :=
  flat_map (fun ev => match ev with AudioChunkEvent s => [s] | _ => [] end) t.


Definition errorsReported (t : list Event) : list Error :=
  flat_map (fun ev => match ev with ErrorEvent e => [e] | _ => [] end) t.

Definition releases (t : list Event) : list Resource :=
  flat_map (fun ev => match ev with Released r => [r] | _ => [] end) t.

(** The noise estimate and the energy history after a frame of energy [e]
    has gone through [performVAD]. *)
Definition noiseAfter (c : RealTimeAudioCapture) : float :=
  if 10 <? length (energyHistory c)
  then percentile10 (energyHistory c)
  else backgroundNoise c.

Definition historyAfter (e : float) (c : RealTimeAudioCapture) : list float :=
  let history := energyHistory c ++ [e] in
  if energyHistorySize c <? length history then tl history else history.

(** The object right after the hand-over of a flush. *)
Definition flushed (c : RealTimeAudioCapture) : RealTimeAudioCapture :=
  set_trace (trace c ++ [AudioChunkEvent (concat (audioBuffer c))]) c.

(** The running sample count agrees with the buffered chunks. *)
Definition buffer_consistent (c : RealTimeAudioCapture) : Prop :=
  bufferSize c = length (concat (audioBuffer c)).

(** How the per-frame path classifies a frame delivered in state [c]: the
    value of [vadResult.isSpeech] with which the [if] of
    [processAudioChunk] is reached, if it is reached. *)
Definition classified (log10 : float -> float) (inputData : Float32Array)
    (c : RealTimeAudioCapture) : option bool :=
  if isRecording c then
    match fst (analyseChunk log10 inputData c) with
    | Returned vadResult => Some (isSpeech vadResult)
    | Thrown _ => None
    end
  else None.

Definition is_speech (o : option bool) : bool :=
  match o with Some true => true | _ => false end.

(** Every frame of a delivered stream is classified as speech. *)
Fixpoint all_speech (log10 : float -> float) (frames : list Float32Array)
    (c : RealTimeAudioCapture) : bool :=
  match frames with
  | [] => true
  | inputData :: rest =>
      is_speech (classified log10 inputData c)
      && all_speech log10 rest (snd (onaudioprocess log10 inputData c))
  end.

(** The frames of a delivered stream that are classified as speech. *)
Fixpoint speech_frames (log10 : float -> float) (frames : list Float32Array)
    (c : RealTimeAudioCapture) : list Float32Array :=
  match frames with
  | [] => []
  | inputData :: rest =>
      (if is_speech (classified log10 inputData c) then [inputData] else [])
      ++ speech_frames log10 rest (snd (onaudioprocess log10 inputData c))
  end.

(** The device resources the object holds, in the order [cleanup] visits
    them. *)
Definition holds (field : option HostObject) (r : Resource) : list Resource :=
  match field with Some _ => [r] | None => [] end.

Definition held (c : RealTimeAudioCapture) : list Resource :=
  holds (processor c) Processor ++ holds (analyser c) Analyser
  ++ holds (microphone c) Microphone ++ holds (audioContext c) AudioContext
  ++ holds (stream c) Stream.

(** The final flush of a stop returns: there is nothing to flush, or nobody
    listens, or the listener returns. *)
Definition flush_returns (c : RealTimeAudioCapture) : Prop :=
  match audioBuffer c with
  | [] => True
  | _ :: _ => call (onAudioChunk c) (concat (audioBuffer c)) = Returned tt
  end.

(** No registered listener of the per-frame path throws. *)
Definition listeners_return (c : RealTimeAudioCapture) : Prop :=
  (forall v, call (onAudioLevel c) v = Returned tt)
  /\ (forall v, call (onVAD c) v = Returned tt)
  /\ (forall v, call (onAudioChunk c) v = Returned tt).

(** The formulas of the specification, for comparison with [performVAD]. *)
Module Spec.
Local Open Scope float_scope.

(** [rms = sqrt(mean(f[i]^2))] and [e = log10(rms + epsilon)]. *)
Definition rms (f : Float32Array) : float :=
  sqrt (fold_left add (map (fun x => x * x) f) 0 / of_length (length f)).

Definition energy (log10 : float -> float) (epsilon : float) (f : Float32Array)
  : float :=
  log10 (rms f + epsilon).

Definition threshold (log10 : float -> float) (backgroundNoiseEstimate
    configuredVadThreshold : float) : float :=
  let adaptiveThreshold := backgroundNoiseEstimate + 0.5 in
  let fallbackThreshold := log10 configuredVadThreshold in
  Math_max adaptiveThreshold fallbackThreshold.

Definition isSpeech (log10 : float -> float) (e recentAvg backgroundNoiseEstimate
    configuredVadThreshold : float) : bool :=
  (threshold log10 backgroundNoiseEstimate configuredVadThreshold <? recentAvg)
  || (backgroundNoiseEstimate + 0.3 <? e).

Definition clamp (x lo hi : float) : float := Math_min (Math_max x lo) hi.

Definition confidence (log10 : float -> float) (recentAvg backgroundNoiseEstimate
    configuredVadThreshold : float) : float :=
  clamp ((recentAvg - threshold log10 backgroundNoiseEstimate configuredVadThreshold) / 2)
        0 1.

(** The value at the 10th percentile of an ascending list. *)
Definition percentile10 (sorted : list float) : float :=
  nth (length sorted / 10) sorted nan.

End Spec.

(** ** Sample sessions *)

(** A one-sample frame at half scale, and a frame of digital silence. *)
Definition loud : Float32Array := [0.5%float].
Definition silent : Float32Array := [0%float].

(** An object on which [initialize] has succeeded (five host objects), and
    the same object once [startRecording] has set [isRecording]. *)
Definition initialized : RealTimeAudioCapture :=
  set_stream (Some 1)
    (set_audioContext (Some 2)
       (set_microphone (Some 3)
          (set_analyser (Some 4)
             (set_processor (Some 5) (new defaultOptions))))).

Definition recording : RealTimeAudioCapture := set_isRecording true initialized.

(** A listener that throws. *)
Definition failing (A : Type) : Listener A :=
  fun _ => Thrown "listener failed"%string.

(** ** Acquiring the device: [initialize] and [startRecording]

    The browser is an input of these two methods: what it answers to each
    call the method makes.  Every call that creates a host object returns
    it or throws; [getUserMedia] and [resume] are awaited promises, which
    resolve or reject (a rejection is the exception the [await] raises). *)

Record Host := {
  mediaDevicesSupported : bool;
  getUserMedia : outcome HostObject;
  newAudioContext : outcome HostObject;
  createMediaStreamSource : outcome HostObject;
  createAnalyser : outcome HostObject;
  createScriptProcessor : float -> outcome HostObject;
  connectNodes : outcome unit
}.

(** [try { body } catch (error) { handler }]. *)
Definition try_catch (A : Type) (body : M A) (handler : Error -> M A) : M A :=
  fun c => match body c with
           | (Returned a, c') => (Returned a, c')
           | (Thrown error, c') => handler error c'
           end.

(** [initialize].  The configuration of the analyser and the assignment of
    the [onaudioprocess] handler cannot fail and change no field; the three
    [connect] calls are one step. *)
Definition initialize (host : Host) : M bool :=
  try_catch
    (if negb (mediaDevicesSupported host) then
       notify onError ErrorEvent "Microphone access not supported"%string ;;
       ret false
     else
       (* Request microphone access *)
       stream <- lift (getUserMedia host) ;;
       modify (set_stream (Some stream)) ;;
       (* Create audio context *)
       context <- lift (newAudioContext host) ;;
       modify (set_audioContext (Some context)) ;;
       (* Create audio nodes *)
       source <- lift (createMediaStreamSource host) ;;
       modify (set_microphone (Some source)) ;;
       node <- lift (createAnalyser host) ;;
       modify (set_analyser (Some node)) ;;
       c <- get ;;
       script <- lift (createScriptProcessor host (chunkSize (options c))) ;;
       modify (set_processor (Some script)) ;;
       (* Connect audio nodes *)
       lift (connectNodes host) ;;
       ret true)
    (fun error => notify onError ErrorEvent error ;; ret false).

(** [startRecording].  [suspended] says whether the state of the audio
    context is ['suspended'], [resume] what [audioContext.resume()] answers
    in that case. *)
Definition startRecording (suspended : bool) (resume : outcome unit) : M bool :=
  c <- get ;;
  match audioContext c with
  | None => ret false
  | Some _ =>
      try_catch
        ((if suspended then lift resume else ret tt) ;;
         modify (set_isRecording true) ;;
         ret true)
        (fun error => notify onError ErrorEvent error ;; ret false)
  end.

(** A browser in which every call succeeds, and the host calls in the order
    [initialize] makes them. *)
Definition workingHost : Host :=
  {| mediaDevicesSupported := true;
     getUserMedia := Returned 1;
     newAudioContext := Returned 2;
     createMediaStreamSource := Returned 3;
     createAnalyser := Returned 4;
     createScriptProcessor := fun _ => Returned 5;
     connectNodes := Returned tt |}.

(** Every host call of [initialize] succeeds. *)
Definition host_succeeds (host : Host) (c : RealTimeAudioCapture) : bool :=
  mediaDevicesSupported host
  && match getUserMedia host, newAudioContext host, createMediaStreamSource host,
           createAnalyser host, createScriptProcessor host (chunkSize (options c)),
           connectNodes host with
     | Returned _, Returned _, Returned _, Returned _, Returned _, Returned _ => true
     | _, _, _, _, _, _ => false
     end.

(** A browser that grants the microphone and cannot create an audio
    context. *)
Definition noContextHost : Host :=
  {| mediaDevicesSupported := true;
     getUserMedia := Returned 1;
     newAudioContext := Thrown "NotSupportedError"%string;
     createMediaStreamSource := Returned 3;
     createAnalyser := Returned 4;
     createScriptProcessor := fun _ => Returned 5;
     connectNodes := Returned tt |}.

(** * Error utilities: [AppError], [handleError], [withRetry] *)

Module ErrorHandling.

(** A thrown value: an instance of [AppError] (of the class itself or of a
    subclass, [name] says which), another [Error], or any other value, of
    which only [String(value)] matters. *)
Inductive Exception :=
| AppErrorValue (name message : string) (code : option string) (recoverable : bool)
| ErrorValue (message : string)
| OtherValue (text : string).

(** The constructors of the five classes. *)
Definition AppError (message : string) (code : option string) (recoverable : bool)
  : Exception := AppErrorValue "AppError" message code recoverable.
Definition TranscriptionError (message : string) (code : option string) : Exception :=
  AppErrorValue "TranscriptionError" message code true.
Definition FileError (message : string) (code : option string) : Exception :=
  AppErrorValue "FileError" message code true.
Definition NetworkError (message : string) (code : option string) : Exception :=
  AppErrorValue "NetworkError" message code true.
Definition ModelError (message : string) (code : option string) : Exception :=
  AppErrorValue "ModelError" message code false.

(** [haystack.includes(needle)]. *)
Fixpoint includes (needle haystack : string) : bool :=
  String.prefix needle haystack
  || match haystack with
     | EmptyString => false
     | String _ rest => includes needle rest
     end.

(** [handleError]; the [console.error] is left out. *)
Definition handleError (error : Exception) : string :=
  match error with
  | AppErrorValue _ message _ _ => message
  | ErrorValue message =>
      (* Handle specific error types *)
      if includes "network" message || includes "fetch" message then
        "Network error. Please check your connection and try again."
      else if includes "permission" message || includes "access" message then
        "Permission denied. Please check file/folder permissions."
      else if includes "memory" message || includes "heap" message then
        "Out of memory. Try processing smaller files or closing other applications."
      else if includes "timeout" message then
        "Operation timed out. The file may be too large or the system may be busy."
      else if includes "model" message then
        "Model error. Please check that the model is properly loaded."
      else message
  | OtherValue _ => "An unexpected error occurred. Please try again."
  end%string.

(** An awaited promise resolves or rejects. *)
Inductive Settled (T : Type) : Type :=
| Resolved (value : T)
| Rejected (error : Exception).
Arguments Rejected {T} error.

(** What a call of [withRetry] did: how it settled, how many times it called
    the operation, and the delays it passed to [setTimeout], in order. *)
Record Run (T : Type) := {
  settled : Settled T;
  calls : nat;
  waits : list nat
}.

(** [error instanceof Error ? error : new Error(String(error))]. *)
Definition asError (error : Exception) : Exception :=
  match error with
  | OtherValue text => ErrorValue text
  | _ => error
  end.

(** [error instanceof AppError && !error.recoverable]. *)
Definition nonRecoverable (error : Exception) : bool :=
  match error with
  | AppErrorValue _ _ _ recoverable => negb recoverable
  | _ => false
  end.

Section Retry.
Variable T : Type.

(** [operation i] is how the call number [i] of the operation settles
    (counting from zero). *)
Variable operation : nat -> Settled T.

(** The two numbers are natural numbers, as the defaults 3 and 1000 are;
    the delays [delay * Math.pow(2, i)] are then exact as long as they stay
    below 2^53. *)
Variables maxRetries delay : nat.

(** The [for] loop of [withRetry] from iteration [i] on, with [remaining]
    iterations to go, and the [throw] that follows it. *)
Fixpoint retryLoop (remaining i : nat) (lastError : option Exception) : Run T :=
  match remaining with
  | O =>
      {| settled := Rejected match lastError with
                             | Some error => error
                             | None => ErrorValue "Operation failed after retries"
                             end;
         calls := 0; waits := [] |}
  | S remaining' =>
      match operation i with
      | Resolved value => {| settled := Resolved value; calls := 1; waits := [] |}
      | Rejected error =>
          let lastError := asError error in
          (* Don't retry non-recoverable errors *)
          if nonRecoverable error
          then {| settled := Rejected error; calls := 1; waits := [] |}
          else
            (* Wait before retrying (exponential backoff) *)
            let wait := if i <? maxRetries - 1 then [delay * 2 ^ i] else [] in
            let rest := retryLoop remaining' (S i) (Some lastError) in
            {| settled := settled rest; calls := S (calls rest);
               waits := wait ++ waits rest |}
      end
  end.

Definition withRetry : Run T := retryLoop maxRetries 0 None.

(** The first [k] calls are rejected with errors that allow a retry. *)
Definition retried (k : nat) : Prop :=
  forall j, j < k ->
    exists error, operation j = Rejected error /\ nonRecoverable error = false.

End Retry.

(** The delays of the exponential backoff before the calls 1 to [k]. *)
Definition backoff (delay k : nat) : list nat :=
  map (fun i => delay * 2 ^ i) (seq 0 k).

End ErrorHandling.

(** * The transcription manager

    [RealTimeTranscriptionManager] owns a capture object and listens to its
    chunks.  Embedded here: the constructor, the chunk listener with the
    guard of [processAudioForTranscription], the part of
    [stopTranscription] that runs before its first [await], and [cleanup].
    The backend calls themselves are asynchronous and are not modelled:
    [accepted] records, in order, the chunks that passed the guard, that is,
    the chunks for which a backend call is made. *)

Module Manager.

Record RealTimeTranscriptionManager := {
  audioCapture : RealTimeAudioCapture;
  isTranscribing : bool;
  sessionId : option string;
  recognition : option HostObject;
  isBrowserMode : bool;
  accepted : list Float32Array
}.

(** The listener the constructor registers with [setOnAudioChunk]: a
    [console.log] and a call of an [async] method; it never throws. *)
Definition chunkListener : Listener Float32Array := fun _ => Returned tt.

(** The constructor: [isElectron] is [electronService.isElectron],
    [inTauri] whether [window] carries [__TAURI_IPC__].  The error listener
    forwards to the manager's own [onError], which nobody has set yet. *)
Definition create (isElectron inTauri : bool) : RealTimeTranscriptionManager :=
  {| audioCapture :=
       set_onError (Some (fun _ => Returned tt))
         (set_onAudioChunk (Some chunkListener) (new defaultOptions));
     isTranscribing := false;
     sessionId := None;
     recognition := None;
     isBrowserMode := if isElectron then false else negb inTauri;
     accepted := [] |}.

(** The chunk listener forwards outside browser mode, and
    [processAudioForTranscription] goes on when
    [!(!this.isTranscribing || !this.sessionId)]. *)
Definition accepts (m : RealTimeTranscriptionManager) : bool :=
  negb (isBrowserMode m)
  && isTranscribing m
  && match sessionId m with
     | Some id => negb (String.eqb id "")
     | None => false
     end.

(** A method of the capture object run on behalf of the manager: the chunks
    it hands over reach the chunk listener, which accepts them or not. *)
Definition onCapture (A : Type) (method : M A) (m : RealTimeTranscriptionManager)
  : outcome A * RealTimeTranscriptionManager :=
  let (out, capture) := method (audioCapture m) in
  (out,
   {| audioCapture := capture;
      isTranscribing := isTranscribing m;
      sessionId := sessionId m;
      recognition := recognition m;
      isBrowserMode := isBrowserMode m;
      accepted := accepted m
                  ++ (if accepts m
                      then segments (new_events (audioCapture m) capture)
                      else []) |}).

(** Frames delivered by the host while the manager exists. *)
Definition frames (log10 : float -> float) (inputs : list Float32Array)
    (m : RealTimeTranscriptionManager) : RealTimeTranscriptionManager :=
  snd (onCapture (fun c => (Returned tt, deliver log10 inputs c)) m).

(** A manager in the middle of a session: a session id, [isTranscribing]
    set, and the capture recording. *)
Definition transcribing (id : string) (m : RealTimeTranscriptionManager)
  : RealTimeTranscriptionManager :=
  {| audioCapture := set_isRecording true (audioCapture m);
     isTranscribing := true;
     sessionId := Some id;
     recognition := recognition m;
     isBrowserMode := isBrowserMode m;
     accepted := accepted m |}.

(** [stopTranscription] up to its first [await]: in browser mode that is the
    whole method; otherwise it stops at [await import('./api')], before the
    session id is cleared.  An exception of [stopRecording] rejects the
    promise at once. *)
Definition stopTranscription (m : RealTimeTranscriptionManager)
  : outcome unit * RealTimeTranscriptionManager :=
  let m := {| audioCapture := audioCapture m; isTranscribing := false;
              sessionId := sessionId m; recognition := recognition m;
              isBrowserMode := isBrowserMode m; accepted := accepted m |} in
  match onCapture stopRecording m with
  | (Thrown e, m) => (Thrown e, m)
  | (Returned _, m) =>
      (Returned tt,
       {| audioCapture := audioCapture m; isTranscribing := isTranscribing m;
          sessionId := if isBrowserMode m then None else sessionId m;
          (* Stop Web Speech API in browser mode *)
          recognition := None;
          isBrowserMode := isBrowserMode m; accepted := accepted m |})
  end.

(** [cleanup]: the promise of [stopTranscription] is dropped, then the
    capture object is cleaned up. *)
Definition cleanup (m : RealTimeTranscriptionManager)
  : outcome unit * RealTimeTranscriptionManager :=
  onCapture cleanup (snd (stopTranscription m)).

(** The constructor's wiring is in place. *)
Definition wired (m : RealTimeTranscriptionManager) : Prop :=
  onAudioChunk (audioCapture m) = Some chunkListener.

(** An Electron session under way: the manager created, its capture
    initialised by a working browser, transcription started. *)
Definition session : RealTimeTranscriptionManager :=
  transcribing "electron-1"
    (snd (onCapture (initialize workingHost) (create true false))).

End Manager.

(** ** The sign of a number *)

(** A number that is not negative: [+0], a positive number, [+Infinity], or
    NaN. *)
Definition notNegative (x : float) : bool :=
  match Prim2SF x with
  | S754_zero false | S754_infinity false | S754_finite false _ _ | S754_nan => true
  | _ => false
  end.

(** * Proofs *)

Unset Implicit Arguments.

(** ** Unfolding the methods *)

Ltac run_method :=
  cbv beta iota delta [bind ret get modify lift notify release].

(** ** The flush *)

Lemma typed_set_fits (pre chunk post : Float32Array) :
  typed_set (pre ++ repeat 0%float (length chunk) ++ post) chunk (length pre)
  = Returned (pre ++ chunk ++ post).
Proof.
  unfold typed_set.
  rewrite !length_app, repeat_length.
  destruct (Nat.leb_spec (length pre + length chunk)
              (length pre + (length chunk + length post))) as [_ | H]; [ | lia ].
  f_equal.
  rewrite firstn_app, firstn_all, Nat.sub_diag, firstn_O, app_nil_r.
  f_equal. f_equal.
  rewrite skipn_app, skipn_all2 by lia. cbn [app].
  replace (length pre + length chunk - length pre) with (length chunk) by lia.
  rewrite skipn_app, skipn_all2 by (rewrite repeat_length; lia).
  rewrite repeat_length, Nat.sub_diag.
  reflexivity.
Qed.

Lemma total_length_from (chunks : list Float32Array) (n : nat) :
  fold_left (fun acc chunk => acc + length chunk) chunks n
  = n + length (concat chunks).
Proof.
  revert n. induction chunks as [ | chunk rest IH ]; intro n; cbn.
  - lia.
  - rewrite IH, length_app. lia.
Qed.

Lemma copy_chunks_concat (chunks : list Float32Array) (pre : Float32Array) :
  copy_chunks chunks (pre ++ repeat 0%float (length (concat chunks))) (length pre)
  = Returned (pre ++ concat chunks).
Proof.
  revert pre. induction chunks as [ | chunk rest IH ]; intro pre; cbn.
  - reflexivity.
  - rewrite length_app, repeat_app, typed_set_fits.
    replace (length pre + length chunk) with (length (pre ++ chunk))
      by apply length_app.
    rewrite app_assoc, IH, <- app_assoc. reflexivity.
Qed.

(** What a flush does, case by case. *)
Lemma sendBufferedAudio_eq (c : RealTimeAudioCapture) :
  sendBufferedAudio c =
  match audioBuffer c with
  | [] => (Returned tt, c)
  | _ :: _ =>
      match call (onAudioChunk c) (concat (audioBuffer c)) with
      | Returned _ => (Returned tt, set_bufferSize 0 (set_audioBuffer [] (flushed c)))
      | Thrown e => (Thrown e, flushed c)
      end
  end.
Proof.
  unfold sendBufferedAudio. run_method.
  destruct (audioBuffer c) as [ | chunk rest ] eqn:Hbuf; [ reflexivity | ].
  rewrite total_length_from. cbn [Nat.add].
  pose proof (copy_chunks_concat (chunk :: rest) []) as Hcopy.
  cbn [app length] in Hcopy. rewrite Hcopy.
  unfold flushed. rewrite Hbuf.
  destruct (call (onAudioChunk c) (concat (chunk :: rest))) as [ [] | e ]; reflexivity.
Qed.

(** ** Voice activity detection *)

Section Frames.
Variable log10 : float -> float.

(** [performVAD] always returns; its result and the state it leaves. *)
Lemma performVAD_eq (data : Float32Array) (c : RealTimeAudioCapture) :
  let e := frameEnergy log10 data in
  let recentAvg := mean (slice_last 5 (historyAfter e c)) in
  exists r,
    performVAD log10 data c
    = (Returned r,
       set_energyHistory (historyAfter e c) (set_backgroundNoise (noiseAfter c) c))
    /\ isSpeech r
       = Spec.isSpeech log10 e recentAvg (noiseAfter c) (vadThreshold (options c))
    /\ confidence r
       = Spec.confidence log10 recentAvg (noiseAfter c) (vadThreshold (options c))
    /\ energy r = recentAvg.
Proof.
  intros e recentAvg. subst e recentAvg.
  unfold performVAD, historyAfter, noiseAfter.
  destruct c as [st ac pr an mi rec buf size maxb hist hsize sil sp minsp minsil
                 bn oc ov oe ol opts tr].
  cbn [energyHistory backgroundNoise energyHistorySize options set_backgroundNoise
       set_energyHistory].
  destruct (10 <? length hist);
    cbn [energyHistory backgroundNoise energyHistorySize options set_backgroundNoise
         set_energyHistory];
    destruct (hsize <? length (hist ++ [frameEnergy log10 data]));
    cbn [energyHistory backgroundNoise energyHistorySize options set_backgroundNoise
         set_energyHistory];
    eexists; (split; [ reflexivity | ]); cbn [isSpeech confidence energy];
    repeat split; reflexivity.
Qed.

(** ** The first half of the per-frame path *)

Lemma analyseChunk_eq (data : Float32Array) (c : RealTimeAudioCapture) :
  let e := frameEnergy log10 data in
  let recentAvg := mean (slice_last 5 (historyAfter e c)) in
  let level := calculateAudioLevel data in
  exists r,
    analyseChunk log10 data c
    = match call (onAudioLevel c) level with
      | Thrown err => (Thrown err, set_trace (trace c ++ [AudioLevelEvent level]) c)
      | Returned _ =>
          let c' := set_trace (trace c ++ [AudioLevelEvent level; VADEvent r])
                      (set_energyHistory (historyAfter e c)
                         (set_backgroundNoise (noiseAfter c) c)) in
          match call (onVAD c) r with
          | Thrown err => (Thrown err, c')
          | Returned _ => (Returned r, c')
          end
      end
    /\ fst (performVAD log10 data c) = Returned r
    /\ isSpeech r
       = Spec.isSpeech log10 e recentAvg (noiseAfter c) (vadThreshold (options c))
    /\ confidence r
       = Spec.confidence log10 recentAvg (noiseAfter c) (vadThreshold (options c))
    /\ energy r = recentAvg.
Proof.
  intros e recentAvg level.
  destruct (performVAD_eq data c) as (r & Hrun & Hspeech & Hconf & Henergy).
  destruct (performVAD_eq data (set_trace (trace c ++ [AudioLevelEvent level]) c))
    as (r1 & Hrun1 & Hspeech1 & Hconf1 & Henergy1).
  assert (r1 = r) as ->.
  { destruct r, r1. cbn in *. subst. reflexivity. }
  exists r. split; [ | rewrite Hrun; auto ].
  unfold analyseChunk. run_method. fold level.
  destruct (call (onAudioLevel c) level) as [ [] | err ]; [ | reflexivity ].
  rewrite Hrun1. cbn [onVAD set_energyHistory set_backgroundNoise set_trace trace].
  rewrite <- app_assoc. cbn [app].
  destruct (call (onVAD c) r) as [ [] | err ]; reflexivity.
Qed.

(** The first half assigns [backgroundNoise], [energyHistory] and the
    trace, nothing else; it emits no Segment, reports no error and releases
    nothing. *)
Lemma analyseChunk_shape (data : Float32Array) (c : RealTimeAudioCapture) :
  exists t h bn,
    snd (analyseChunk log10 data c)
    = set_trace (trace c ++ t) (set_energyHistory h (set_backgroundNoise bn c))
    /\ segments t = [] /\ errorsReported t = [] /\ releases t = [].
Proof.
  destruct (analyseChunk_eq data c) as (r & Heq & _). cbv zeta in Heq. rewrite Heq.
  destruct (call (onAudioLevel c) _) as [ [] | err ].
  - destruct (call (onVAD c) r) as [ [] | err ]; cbn [snd];
      do 3 eexists; (split; [ reflexivity | ]); cbn; auto.
  - exists [AudioLevelEvent (calculateAudioLevel data)], (energyHistory c),
      (backgroundNoise c).
    split; [ destruct c; reflexivity | cbn; auto ].
Qed.

End Frames.

(** ** The second half of the per-frame path *)

Lemma bufferChunk_eq (data : Float32Array) (r : VADResult) (c : RealTimeAudioCapture) :
  bufferChunk data r c =
  if isSpeech r then
    let c1 := set_silenceFrames 0
                (set_speechFrames (S (speechFrames c))
                   (set_bufferSize (bufferSize c + length data)
                      (set_audioBuffer (audioBuffer c ++ [data]) c))) in
    if maxBufferSize c <=? bufferSize c + length data
    then sendBufferedAudio c1 else (Returned tt, c1)
  else
    let c1 := set_speechFrames 0 (set_silenceFrames (S (silenceFrames c)) c) in
    if (minSilenceFrames c <=? S (silenceFrames c)) && (0 <? length (audioBuffer c))
    then sendBufferedAudio c1 else (Returned tt, c1).
Proof.
  unfold bufferChunk. destruct (isSpeech r); run_method;
    cbn [audioBuffer bufferSize maxBufferSize minSilenceFrames silenceFrames
         speechFrames set_silenceFrames set_speechFrames set_bufferSize
         set_audioBuffer].
  - destruct (maxBufferSize c <=? bufferSize c + length data); reflexivity.
  - destruct ((minSilenceFrames c <=? S (silenceFrames c))
              && (0 <? length (audioBuffer c))); reflexivity.
Qed.

Lemma new_events_app (c c' : RealTimeAudioCapture) (t : list Event) :
  trace c' = trace c ++ t -> new_events c c' = t.
Proof.
  intro H. unfold new_events. rewrite H, skipn_app, skipn_all, Nat.sub_diag.
  reflexivity.
Qed.

Lemma segments_app (t u : list Event) : segments (t ++ u) = segments t ++ segments u.
Proof. apply flat_map_app. Qed.

Lemma releases_app (t u : list Event) : releases (t ++ u) = releases t ++ releases u.
Proof. apply flat_map_app. Qed.

Lemma errorsReported_app (t u : list Event) :
  errorsReported (t ++ u) = errorsReported t ++ errorsReported u.
Proof. apply flat_map_app. Qed.

Ltac fields :=
  cbn [fst snd flushed
       stream audioContext processor analyser microphone isRecording audioBuffer
       bufferSize maxBufferSize energyHistory energyHistorySize silenceFrames
       speechFrames minSpeechFrames minSilenceFrames backgroundNoise onAudioChunk
       onVAD onError onAudioLevel options trace
       set_stream set_audioContext set_processor set_analyser set_microphone
       set_isRecording set_audioBuffer set_bufferSize set_energyHistory
       set_silenceFrames set_speechFrames set_backgroundNoise set_onAudioChunk
       set_onVAD set_onError set_onAudioLevel set_trace] in *.

Ltac events :=
  unfold new_events; fields;
  rewrite <- ?app_assoc, ?skipn_app, ?skipn_all, ?Nat.sub_diag; cbn [skipn app];
  rewrite ?segments_app, ?releases_app, ?errorsReported_app;
  cbn [segments releases errorsReported flat_map app].

Lemma onaudioprocess_eq (log10 : float -> float) (data : Float32Array) (c : RealTimeAudioCapture) :
  onaudioprocess log10 data c =
  if isRecording c then
    match analyseChunk log10 data c with
    | (Returned r, c') => bufferChunk data r c'
    | (Thrown e, c') => (Thrown e, c')
    end
  else (Returned tt, c).
Proof.
  unfold onaudioprocess, processAudioChunk. run_method.
  destruct (isRecording c); reflexivity.
Qed.

Lemma processAudioChunk_eq (log10 : float -> float) (data : Float32Array) (c : RealTimeAudioCapture) :
  processAudioChunk log10 data c =
  match analyseChunk log10 data c with
  | (Returned r, c') => bufferChunk data r c'
  | (Thrown e, c') => (Thrown e, c')
  end.
Proof. reflexivity. Qed.

(** The per-frame path, case by case: the outcome of the listeners, the
    classification and the flush condition. *)
Ltac chunk_cases log10 data c :=
  let r := fresh "r" in
  let Heq := fresh "Heq" in
  let Hvad := fresh "Hvad" in
  destruct (analyseChunk_eq log10 data c) as (r & Heq & Hvad & _);
  cbv zeta in Heq; rewrite ?Heq; clear Heq;
  destruct (call (onAudioLevel c) (calculateAudioLevel data)) as [ [] | ? ] eqn:HonLevel;
  [ destruct (call (onVAD c) r) as [ [] | ? ] eqn:HonVAD;
    [ rewrite bufferChunk_eq; cbv zeta;
      cbn [audioBuffer bufferSize maxBufferSize minSilenceFrames silenceFrames
           speechFrames set_trace set_energyHistory set_backgroundNoise];
      destruct (isSpeech r) eqn:Hspeech;
      [ destruct (maxBufferSize c <=? bufferSize c + length data) eqn:Hfull
      | destruct ((minSilenceFrames c <=? S (silenceFrames c))
                  && (0 <? length (audioBuffer c))) eqn:Hquiet ];
      rewrite ?sendBufferedAudio_eq;
      cbn [audioBuffer onAudioChunk set_silenceFrames set_speechFrames
           set_bufferSize set_audioBuffer set_trace set_energyHistory
           set_backgroundNoise]
    | ]
  | ].

Ltac frame_cases log10 data c :=
  unfold classified; rewrite ?onaudioprocess_eq;
  destruct (isRecording c) eqn:Hrec; [ chunk_cases log10 data c | ].

Section Buffering.
Variable log10 : float -> float.

(** What no frame changes, and what no frame emits. *)
Lemma frame_preserves (data : Float32Array) (c : RealTimeAudioCapture) :
  let c' := snd (onaudioprocess log10 data c) in
  isRecording c' = isRecording c
  /\ maxBufferSize c' = maxBufferSize c
  /\ minSilenceFrames c' = minSilenceFrames c
  /\ onAudioChunk c' = onAudioChunk c
  /\ held c' = held c
  /\ trace c' = trace c ++ new_events c c'
  /\ errorsReported (new_events c c') = []
  /\ releases (new_events c c') = [].
Proof.
  cbv zeta. unfold held.
  frame_cases log10 data c;
    repeat match goal with
           | |- context [match ?l with [] => _ | _ :: _ => _ end] => destruct l
           | |- context [match call ?f ?v with _ => _ end] => destruct (call f v)
           end;
    events; rewrite ?app_nil_r; auto 10.
Qed.

Ltac frame_leaves :=
  repeat match goal with
         | |- context [match ?l with [] => _ | _ :: _ => _ end] => destruct l eqn:?
         | |- context [match call ?f ?v with _ => _ end] => destruct (call f v) eqn:?
         end;
  events.

(** A frame that is not classified (the object is not recording, or a
    listener threw before the classification was used) leaves the buffer and
    the counters alone. *)
Lemma frame_unclassified (data : Float32Array) (c : RealTimeAudioCapture) :
  classified log10 data c = None ->
  let c' := snd (onaudioprocess log10 data c) in
  audioBuffer c' = audioBuffer c /\ bufferSize c' = bufferSize c
  /\ silenceFrames c' = silenceFrames c /\ speechFrames c' = speechFrames c
  /\ segments (new_events c c') = [].
Proof.
  cbv zeta. frame_cases log10 data c; fields; try discriminate; intros _;
    events; rewrite ?app_nil_r; auto.
Qed.

(** A frame classified as speech is appended; the buffer is flushed when
    the sample count has reached [maxBufferSize]. *)
Lemma frame_speech (data : Float32Array) (c : RealTimeAudioCapture) :
  classified log10 data c = Some true ->
  let c' := snd (onaudioprocess log10 data c) in
  let buffer := audioBuffer c ++ [data] in
  let size := bufferSize c + length data in
  silenceFrames c' = 0 /\ speechFrames c' = S (speechFrames c)
  /\ if maxBufferSize c <=? size
     then segments (new_events c c') = [concat buffer]
          /\ match call (onAudioChunk c) (concat buffer) with
             | Returned _ => audioBuffer c' = [] /\ bufferSize c' = 0
             | Thrown _ => audioBuffer c' = buffer /\ bufferSize c' = size
             end
     else segments (new_events c c') = []
          /\ audioBuffer c' = buffer /\ bufferSize c' = size.
Proof.
  cbv zeta. frame_cases log10 data c; fields; try discriminate;
    try (intro Hcl; injection Hcl as Hcl; congruence); intros _.
  - destruct (audioBuffer c ++ [data]) as [ | chunk rest ] eqn:Hbuf.
    + destruct (audioBuffer c); discriminate.
    + destruct (call (onAudioChunk c) (concat (chunk :: rest))) as [ [] | e ];
        events; fields; rewrite ?Hbuf; auto.
  - events. auto.
Qed.

(** A frame classified as silence is not appended; the buffer is flushed
    when the silence counter has reached [minSilenceFrames] and there is
    something to flush. *)
Lemma frame_silence (data : Float32Array) (c : RealTimeAudioCapture) :
  classified log10 data c = Some false ->
  let c' := snd (onaudioprocess log10 data c) in
  silenceFrames c' = S (silenceFrames c) /\ speechFrames c' = 0
  /\ if (minSilenceFrames c <=? S (silenceFrames c)) && (0 <? length (audioBuffer c))
     then segments (new_events c c') = [concat (audioBuffer c)]
          /\ match call (onAudioChunk c) (concat (audioBuffer c)) with
             | Returned _ => audioBuffer c' = [] /\ bufferSize c' = 0
             | Thrown _ => audioBuffer c' = audioBuffer c /\ bufferSize c' = bufferSize c
             end
     else segments (new_events c c') = []
          /\ audioBuffer c' = audioBuffer c /\ bufferSize c' = bufferSize c.
Proof.
  cbv zeta. frame_cases log10 data c; fields; try discriminate;
    try (intro Hcl; injection Hcl as Hcl; congruence); intros _.
  - destruct (audioBuffer c) as [ | chunk rest ] eqn:Hbuf.
    + rewrite andb_false_r in Hquiet. discriminate.
    + destruct (call (onAudioChunk c) (concat (chunk :: rest))) as [ [] | e ];
        events; fields; rewrite ?Hbuf; auto.
  - events. auto.
Qed.

End Buffering.

(** ** Stop and cleanup *)

Lemma stopRecording_eq (c : RealTimeAudioCapture) :
  stopRecording c =
  match audioBuffer c with
  | [] => (Returned tt, set_isRecording false c)
  | _ :: _ =>
      match call (onAudioChunk c) (concat (audioBuffer c)) with
      | Returned _ =>
          (Returned tt,
           set_bufferSize 0 (set_audioBuffer [] (flushed (set_isRecording false c))))
      | Thrown e => (Thrown e, flushed (set_isRecording false c))
      end
  end.
Proof.
  unfold stopRecording. run_method. fields.
  destruct (audioBuffer c) as [ | chunk rest ] eqn:Hbuf; cbn [length Nat.ltb Nat.leb].
  - reflexivity.
  - rewrite sendBufferedAudio_eq. fields. rewrite Hbuf. reflexivity.
Qed.

(** The five guarded releases of [cleanup]. *)
Lemma release_eq (field : RealTimeAudioCapture -> option HostObject)
    (clear : RealTimeAudioCapture -> RealTimeAudioCapture) (r : Resource)
    (c : RealTimeAudioCapture) :
  release field clear r c
  = (Returned tt,
     match field c with
     | Some _ => clear (set_trace (trace c ++ [Released r]) c)
     | None => c
     end).
Proof. unfold release. run_method. destruct (field c); reflexivity. Qed.

Lemma releases_eq (c : RealTimeAudioCapture) :
  (release processor (set_processor None) Processor ;;
   release analyser (set_analyser None) Analyser ;;
   release microphone (set_microphone None) Microphone ;;
   release audioContext (set_audioContext None) AudioContext ;;
   release stream (set_stream None) Stream) c
  = (Returned tt,
     set_stream None
       (set_audioContext None
          (set_microphone None
             (set_analyser None
                (set_processor None
                   (set_trace (trace c ++ map Released (held c)) c)))))).
Proof.
  unfold bind. rewrite !release_eq.
  unfold held, holds.
  destruct c as [st ac pr an mi rec buf size maxb hist hsize sil sp minsp minsil
                 bn oc ov oe ol opts tr].
  fields.
  destruct pr; fields; destruct an; fields; destruct mi; fields;
    destruct ac; fields; destruct st; fields; cbn [map app];
    rewrite <- ?app_assoc, ?app_nil_r; reflexivity.
Qed.

Lemma cleanup_eq (c : RealTimeAudioCapture) :
  cleanup c =
  match stopRecording c with
  | (Returned _, c1) =>
      (Returned tt,
       set_stream None
         (set_audioContext None
            (set_microphone None
               (set_analyser None
                  (set_processor None
                     (set_trace (trace c1 ++ map Released (held c1)) c1))))))
  | (Thrown e, c1) => (Thrown e, c1)
  end.
Proof.
  unfold cleanup. unfold bind at 1.
  destruct (stopRecording c) as [ [ [] | e ] c1 ]; [ | reflexivity ].
  apply releases_eq.
Qed.

Lemma releases_map (rs : list Resource) : releases (map Released rs) = rs.
Proof.
  unfold releases. induction rs as [ | r rs IH ]; cbn; [ | f_equal ]; auto.
Qed.

Lemma segments_map_Released (rs : list Resource) : segments (map Released rs) = [].
Proof.
  unfold segments. induction rs as [ | r rs IH ]; cbn; auto.
Qed.

(** ** The sample count *)

Lemma length_concat_snoc (buffer : list Float32Array) (data : Float32Array) :
  length (concat (buffer ++ [data])) = length (concat buffer) + length data.
Proof. rewrite concat_app, length_app. cbn. rewrite app_nil_r. reflexivity. Qed.





Section SampleCount.
Variable log10 : float -> float.

Lemma processAudioChunk_consistent (data : Float32Array) (c : RealTimeAudioCapture) :
  buffer_consistent c -> buffer_consistent (snd (processAudioChunk log10 data c)).
Proof.
  unfold buffer_consistent. intro Hc. rewrite processAudioChunk_eq.
  chunk_cases log10 data c; try (fields; exact Hc).
  - destruct (audioBuffer c ++ [data]) as [ | chunk rest ] eqn:Hbuf.
    + destruct (audioBuffer c); discriminate.
    + destruct (call (onAudioChunk c) (concat (chunk :: rest))) as [ [] | e ]; fields.
      * reflexivity.
      * rewrite <- Hbuf, length_concat_snoc, Hc. reflexivity.
  - fields. rewrite length_concat_snoc, Hc. reflexivity.
  - destruct (audioBuffer c) as [ | chunk rest ] eqn:Hbuf.
    + fields. rewrite Hbuf. exact Hc.
    + destruct (call (onAudioChunk c) (concat (chunk :: rest))) as [ [] | e ]; fields.
      * reflexivity.
      * rewrite Hbuf. exact Hc.
Qed.

Lemma onaudioprocess_consistent (data : Float32Array) (c : RealTimeAudioCapture) :
  buffer_consistent c -> buffer_consistent (snd (onaudioprocess log10 data c)).
Proof.
  intro Hc. rewrite onaudioprocess_eq. rewrite <- processAudioChunk_eq.
  destruct (isRecording c); [ apply processAudioChunk_consistent | ]; exact Hc.
Qed.

Lemma deliver_consistent (frames : list Float32Array) (c : RealTimeAudioCapture) :
  buffer_consistent c -> buffer_consistent (deliver log10 frames c).
Proof.
  revert c. induction frames as [ | data rest IH ]; intros c Hc; cbn.
  - exact Hc.
  - apply IH, onaudioprocess_consistent, Hc.
Qed.

End SampleCount.



(** ** Stopping *)

Lemma stopRecording_events (c : RealTimeAudioCapture) :
  new_events c (snd (stopRecording c))
  = match audioBuffer c with
    | [] => []
    | _ :: _ => [AudioChunkEvent (concat (audioBuffer c))]
    end
  /\ held (snd (stopRecording c)) = held c
  /\ isRecording (snd (stopRecording c)) = false.
Proof.
  rewrite stopRecording_eq. unfold held.
  destruct (audioBuffer c) as [ | chunk rest ] eqn:Hbuf.
  - events. rewrite ?Hbuf. auto.
  - destruct (call (onAudioChunk c) (concat (chunk :: rest))) as [ [] | e ];
      events; rewrite ?Hbuf; auto.
Qed.

Lemma stopRecording_trace (c : RealTimeAudioCapture) :
  trace (snd (stopRecording c)) = trace c ++ new_events c (snd (stopRecording c)).
Proof.
  rewrite stopRecording_eq.
  destruct (audioBuffer c) as [ | chunk rest ] eqn:Hbuf.
  - events. rewrite app_nil_r. reflexivity.
  - destruct (call (onAudioChunk c) (concat (chunk :: rest))) as [ [] | e ];
      events; reflexivity.
Qed.

Lemma cleanup_events (c : RealTimeAudioCapture) :
  new_events c (snd (cleanup c))
  = new_events c (snd (stopRecording c))
    ++ match fst (cleanup c) with
       | Returned _ => map Released (held c)
       | Thrown _ => []
       end.
Proof.
  destruct (stopRecording_events c) as (_ & Hheld & _).
  pose proof (stopRecording_trace c) as Htrace.
  rewrite cleanup_eq.
  destruct (stopRecording c) as [ [ [] | e ] c1 ]; cbn [fst snd] in *.
  - rewrite Hheld. apply new_events_app. fields. rewrite Htrace at 1.
    rewrite <- app_assoc. reflexivity.
  - rewrite app_nil_r. reflexivity.
Qed.

(** C3. Stopping with a non-empty buffer emits exactly one Segment, the
    buffered chunks concatenated in the order they were appended, and
    releases nothing; in [cleanup] that Segment comes before every release.
    Stopping with an empty buffer emits no Segment. *)
Theorem C3_stop_flushes_the_buffer_once (c : RealTimeAudioCapture) :
  (audioBuffer c <> [] ->
   new_events c (snd (stopRecording c)) = [AudioChunkEvent (concat (audioBuffer c))]
   /\ held (snd (stopRecording c)) = held c
   /\ new_events c (snd (cleanup c))
      = AudioChunkEvent (concat (audioBuffer c))
        :: match fst (cleanup c) with
           | Returned _ => map Released (held c)
           | Thrown _ => []
           end)
  /\ (audioBuffer c = [] ->
      new_events c (snd (stopRecording c)) = []
      /\ segments (new_events c (snd (cleanup c))) = []).
Proof.
  destruct (stopRecording_events c) as (Hev & Hheld & _).
  pose proof (cleanup_events c) as Hclean.
  split; intro Hbuf.
  - destruct (audioBuffer c) as [ | chunk rest ]; [ congruence | ].
    repeat split; auto.
    rewrite Hclean, Hev. reflexivity.
  - rewrite Hbuf in Hev. split; [ exact Hev | ].
    rewrite Hclean, Hev. cbn [app].
    destruct (fst (cleanup c)); [ apply segments_map_Released | reflexivity ].
Qed.

(** ** Cleanup *)

Lemma cleanup_returns (c : RealTimeAudioCapture) :
  flush_returns c <-> fst (cleanup c) = Returned tt.
Proof.
  unfold flush_returns. rewrite cleanup_eq, stopRecording_eq.
  destruct (audioBuffer c) as [ | chunk rest ].
  - cbn. tauto.
  - destruct (call (onAudioChunk c) (concat (chunk :: rest))) as [ [] | e ]; cbn;
      split; auto; discriminate.
Qed.

Lemma cleanup_released (c : RealTimeAudioCapture) :
  flush_returns c ->
  let c' := snd (cleanup c) in
  held c' = [] /\ audioBuffer c' = [] /\ isRecording c' = false.
Proof.
  unfold flush_returns. rewrite cleanup_eq, stopRecording_eq. unfold held.
  destruct (audioBuffer c) as [ | chunk rest ] eqn:Hbuf.
  - intros _. fields. rewrite ?Hbuf. auto.
  - destruct (call (onAudioChunk c) (concat (chunk :: rest))) as [ [] | e ];
      [ | discriminate ].
    intros _. fields. auto.
Qed.

Lemma cleanup_again (c : RealTimeAudioCapture) :
  held c = [] -> audioBuffer c = [] -> isRecording c = false ->
  cleanup c = (Returned tt, c).
Proof.
  rewrite cleanup_eq, stopRecording_eq. unfold held, holds.
  destruct c as [st ac pr an mi rec buf size maxb hist hsize sil sp minsp minsil
                 bn oc ov oe ol opts tr].
  fields. intros Hheld -> ->.
  destruct pr; [ discriminate | ]. destruct an; [ discriminate | ].
  destruct mi; [ discriminate | ]. destruct ac; [ discriminate | ].
  destruct st; [ discriminate | ].
  unfold held, holds. fields. cbn [map app]. rewrite app_nil_r. reflexivity.
Qed.

(** C8, as the code has it.  When the final flush of [cleanup] returns
    (the buffer is empty, nobody listens for chunks, or the listener
    returns), [cleanup] returns, releases every resource the object holds,
    whichever of the five that is, and leaves none; a second [cleanup] is
    then a no-op: it returns and leaves the object, trace included, as it
    was. *)
Theorem C8_cleanup_releases_all_and_is_idempotent (c : RealTimeAudioCapture) :
  flush_returns c ->
  let c' := snd (cleanup c) in
  fst (cleanup c) = Returned tt
  /\ releases (new_events c c') = held c
  /\ processor c' = None /\ analyser c' = None /\ microphone c' = None
  /\ audioContext c' = None /\ stream c' = None
  /\ cleanup c' = (Returned tt, c').
Proof.
  intros Hflush c'.
  pose proof (proj1 (cleanup_returns c) Hflush) as Hret.
  destruct (cleanup_released c Hflush) as (Hheld & Hbuf & Hrec). fold c' in Hheld, Hbuf, Hrec.
  split; [ exact Hret | ]. split.
  - subst c'. rewrite cleanup_events, Hret, releases_app, releases_map.
    destruct (stopRecording_events c) as (Hev & _). rewrite Hev.
    destruct (audioBuffer c); reflexivity.
  - pose proof (cleanup_again c' Hheld Hbuf Hrec) as Hagain.
    unfold held, holds in Hheld.
    destruct (processor c'); [ discriminate | ].
    destruct (analyser c'); [ discriminate | ].
    destruct (microphone c'); [ discriminate | ].
    destruct (audioContext c'); [ discriminate | ].
    destruct (stream c'); [ discriminate | ].
    auto 10.
Qed.

(** C8, as stated, fails: with a chunk listener that throws and audio in
    the buffer, [cleanup] is left by the exception of the final flush; all
    five resources are still held and the buffer is still full, so the next
    [cleanup] does the same. *)
Lemma C8_counterexample_throwing_flush :
  let c := deliver log10_ref [loud] (set_onAudioChunk (Some (@failing Float32Array)) recording) in
  held c = [Processor; Analyser; Microphone; AudioContext; Stream]
  /\ fst (cleanup c) = Thrown "listener failed"%string
  /\ held (snd (cleanup c)) = [Processor; Analyser; Microphone; AudioContext; Stream]
  /\ releases (trace (snd (cleanup c))) = []
  /\ fst (cleanup (snd (cleanup c))) = Thrown "listener failed"%string.
Proof. vm_compute. repeat split. Qed.

Lemma C8_witness :
  let c := deliver log10_ref [loud] recording in
  flush_returns c
  /\ releases (new_events c (snd (cleanup c)))
     = [Processor; Analyser; Microphone; AudioContext; Stream]
  /\ cleanup (snd (cleanup c)) = (Returned tt, snd (cleanup c)).
Proof.
  intro c.
  assert (flush_returns c) as Hflush by (vm_compute; reflexivity).
  split; [ exact Hflush | ].
  destruct (C8_cleanup_releases_all_and_is_idempotent c Hflush)
    as (_ & Hrel & _ & _ & _ & _ & _ & Hagain).
  split; [ rewrite Hrel; vm_compute; reflexivity | exact Hagain ].
Defined.

(** ** Streams of frames *)

Section Streams.
Variable log10 : float -> float.

Lemma deliver_app (frames rest : list Float32Array) (c : RealTimeAudioCapture) :
  deliver log10 (frames ++ rest) c = deliver log10 rest (deliver log10 frames c).
Proof.
  revert c. induction frames as [ | data frames IH ]; intro c; cbn; auto.
Qed.

Lemma deliver_trace (frames : list Float32Array) (c : RealTimeAudioCapture) :
  trace (deliver log10 frames c) = trace c ++ new_events c (deliver log10 frames c).
Proof.
  revert c. induction frames as [ | data frames IH ]; intro c; cbn [deliver].
  - unfold new_events. rewrite skipn_all, app_nil_r. reflexivity.
  - destruct (frame_preserves log10 data c) as (_ & _ & _ & _ & _ & Hstep & _).
    cbv zeta in Hstep.
    set (c1 := snd (onaudioprocess log10 data c)) in *.
    assert (trace (deliver log10 frames c1)
            = trace c ++ (new_events c c1 ++ new_events c1 (deliver log10 frames c1)))
      as Hall.
    { rewrite app_assoc, <- Hstep. apply IH. }
    rewrite (@new_events_app _ _ _ Hall). exact Hall.
Qed.

Lemma new_events_deliver_cons (data : Float32Array) (frames : list Float32Array)
    (c : RealTimeAudioCapture) :
  let c1 := snd (onaudioprocess log10 data c) in
  new_events c (deliver log10 (data :: frames) c)
  = new_events c c1 ++ new_events c1 (deliver log10 frames c1).
Proof.
  cbv zeta. cbn [deliver]. apply new_events_app.
  destruct (frame_preserves log10 data c) as (_ & _ & _ & _ & _ & Hstep & _).
  cbv zeta in Hstep. rewrite app_assoc, <- Hstep. apply deliver_trace.
Qed.

Lemma new_events_deliver_app (frames rest : list Float32Array)
    (c : RealTimeAudioCapture) :
  let c1 := deliver log10 frames c in
  new_events c (deliver log10 (frames ++ rest) c)
  = new_events c c1 ++ new_events c1 (deliver log10 rest c1).
Proof.
  cbv zeta. rewrite deliver_app. apply new_events_app.
  rewrite app_assoc, <- deliver_trace. apply deliver_trace.
Qed.

Lemma deliver_settings (frames : list Float32Array) (c : RealTimeAudioCapture) :
  maxBufferSize (deliver log10 frames c) = maxBufferSize c
  /\ minSilenceFrames (deliver log10 frames c) = minSilenceFrames c
  /\ isRecording (deliver log10 frames c) = isRecording c
  /\ onAudioChunk (deliver log10 frames c) = onAudioChunk c
  /\ held (deliver log10 frames c) = held c.
Proof.
  revert c. induction frames as [ | data frames IH ]; intro c; cbn [deliver].
  - auto.
  - destruct (frame_preserves log10 data c) as (H1 & H2 & H3 & H4 & H5 & _).
    cbv zeta in *.
    destruct (IH (snd (onaudioprocess log10 data c))) as (K1 & K2 & K3 & K4 & K5).
    repeat split; congruence.
Qed.

(** While no Segment is emitted, the buffer grows by exactly the frames
    classified as speech, in the order of their delivery. *)
Lemma buffer_accumulates (frames : list Float32Array) (c : RealTimeAudioCapture) :
  segments (new_events c (deliver log10 frames c)) = [] ->
  audioBuffer (deliver log10 frames c) = audioBuffer c ++ speech_frames log10 frames c.
Proof.
  revert c. induction frames as [ | data frames IH ]; intro c.
  - cbn. rewrite app_nil_r. reflexivity.
  - rewrite new_events_deliver_cons. cbv zeta. rewrite segments_app.
    intro Hnone. apply app_eq_nil in Hnone. destruct Hnone as [Hstep Hrest].
    cbn [deliver speech_frames]. rewrite (IH _ Hrest). clear IH Hrest.
    rewrite app_assoc. f_equal.
    destruct (classified log10 data c) as [ [ | ] | ] eqn:Hcl; cbn [is_speech].
    + destruct (frame_speech log10 data c Hcl) as (_ & _ & Hbuf). cbv zeta in Hbuf.
      destruct (maxBufferSize c <=? bufferSize c + length data).
      * destruct Hbuf as [Hseg _]. rewrite Hseg in Hstep. discriminate.
      * destruct Hbuf as (_ & Hbuf & _). exact Hbuf.
    + destruct (frame_silence log10 data c Hcl) as (_ & _ & Hbuf). cbv zeta in Hbuf.
      rewrite app_nil_r.
      destruct ((minSilenceFrames c <=? S (silenceFrames c))
                && (0 <? length (audioBuffer c))).
      * destruct Hbuf as [Hseg _]. rewrite Hseg in Hstep. discriminate.
      * destruct Hbuf as (_ & Hbuf & _). exact Hbuf.
    + destruct (frame_unclassified log10 data c Hcl) as (Hbuf & _).
      rewrite app_nil_r. exact Hbuf.
Qed.

(** Speech frames below the cap: nothing is emitted, everything is kept. *)
Lemma speech_below_cap (chunk : nat) (frames : list Float32Array)
    (c : RealTimeAudioCapture) :
  buffer_consistent c ->
  Forall (fun data => length data = chunk) frames ->
  all_speech log10 frames c = true ->
  bufferSize c + length frames * chunk < maxBufferSize c ->
  let c' := deliver log10 frames c in
  segments (new_events c c') = []
  /\ audioBuffer c' = audioBuffer c ++ frames
  /\ bufferSize c' = bufferSize c + length frames * chunk.
Proof.
  revert c. induction frames as [ | data frames IH ]; intros c Hc Hlen Hall Hcap.
  - cbn. unfold new_events. rewrite skipn_all, app_nil_r. auto.
  - cbv zeta. rewrite new_events_deliver_cons. cbv zeta.
    cbn [deliver all_speech length] in *.
    apply andb_true_iff in Hall. destruct Hall as [Hcl Hall].
    destruct (classified log10 data c) as [ [ | ] | ] eqn:Hcls; try discriminate.
    inversion Hlen as [ | ? ? Hdata Hrest ]; subst.
    destruct (frame_speech log10 data c Hcls) as (_ & _ & Hbuf). cbv zeta in Hbuf.
    destruct (frame_preserves log10 data c) as (_ & Hmax & _). cbv zeta in Hmax.
    destruct (Nat.leb_spec (maxBufferSize c) (bufferSize c + length data)) as [Hfull | _].
    { cbn in Hcap. lia. }
    destruct Hbuf as (Hseg & Hbuf & Hsize).
    destruct (IH (snd (onaudioprocess log10 data c))) as (Kseg & Kbuf & Ksize);
      auto.
    + apply onaudioprocess_consistent, Hc.
    + rewrite Hmax, Hsize. cbn in Hcap. lia.
    + rewrite segments_app, Hseg, Kseg, Kbuf, Ksize, Hbuf, Hsize, <- app_assoc.
      repeat split; cbn; lia.
Qed.

Lemma all_speech_app (frames rest : list Float32Array) (c : RealTimeAudioCapture) :
  all_speech log10 (frames ++ rest) c
  = all_speech log10 frames c && all_speech log10 rest (deliver log10 frames c).
Proof.
  revert c. induction frames as [ | data frames IH ]; intro c; cbn.
  - reflexivity.
  - rewrite IH, andb_assoc. reflexivity.
Qed.

End Streams.

(** ** Exceptions on the per-frame path *)

Section Exceptions.
Variable log10 : float -> float.

(** The handler returns when no listener throws. *)
Lemma frame_returns (data : Float32Array) (c : RealTimeAudioCapture) :
  listeners_return c -> fst (onaudioprocess log10 data c) = Returned tt.
Proof.
  intros (Hlevel & Hvad & Hchunk).
  frame_cases log10 data c;
    repeat match goal with
           | |- context [match ?l with [] => _ | _ :: _ => _ end] => destruct l
           | |- context [match call (onAudioChunk c) ?v with _ => _ end] =>
               rewrite (Hchunk v)
           end;
    try reflexivity.
  - rewrite Hvad in HonVAD. discriminate.
  - rewrite Hlevel in HonLevel. discriminate.
Qed.

(** An exception that leaves the handler was thrown by a listener. *)
Lemma frame_throws (data : Float32Array) (c : RealTimeAudioCapture) (e : Error) :
  fst (onaudioprocess log10 data c) = Thrown e ->
  isRecording c = true
  /\ (call (onAudioLevel c) (calculateAudioLevel data) = Thrown e
      \/ (exists r, call (onVAD c) r = Thrown e)
      \/ (exists chunk, call (onAudioChunk c) chunk = Thrown e)).
Proof.
  frame_cases log10 data c;
    repeat match goal with
           | |- context [match ?l with [] => _ | _ :: _ => _ end] => destruct l
           | |- context [match call (onAudioChunk c) ?v with _ => _ end] =>
               destruct (call (onAudioChunk c) v) as [ [] | ? ] eqn:HonChunk
           end;
    cbn [fst]; intro Hout; try discriminate; injection Hout as ->;
    (split; [ reflexivity | ]); eauto.
Qed.

(** An exception thrown by the level listener or by the VAD listener
    leaves the handler. *)
Lemma frame_propagates (data : Float32Array) (c : RealTimeAudioCapture) (e : Error) :
  isRecording c = true ->
  call (onAudioLevel c) (calculateAudioLevel data) = Thrown e
  \/ (call (onAudioLevel c) (calculateAudioLevel data) = Returned tt
      /\ exists r, fst (performVAD log10 data c) = Returned r
                   /\ call (onVAD c) r = Thrown e) ->
  fst (onaudioprocess log10 data c) = Thrown e.
Proof.
  intros Hrecording Hthrow. rewrite onaudioprocess_eq, Hrecording.
  destruct (analyseChunk_eq log10 data c) as (r & Heq & Hvad & _).
  cbv zeta in Heq. rewrite Heq. clear Heq.
  destruct Hthrow as [ Hlevel | (Hlevel & r' & Hr' & Hthrow) ]; rewrite Hlevel.
  - reflexivity.
  - rewrite Hvad in Hr'. injection Hr' as <-. rewrite Hthrow. reflexivity.
Qed.

End Exceptions.

(** C2, as the code has it.  The per-frame path has no exception handler.
    The audio callback never reports through [onError], never changes
    [isRecording] and never releases a resource.  It returns when the
    listeners return; an exception that leaves it was thrown by one of its
    listeners, and an exception thrown by the level listener or by the VAD
    listener always leaves it. *)
Theorem C2_frame_exceptions_propagate (log10 : float -> float) (data : Float32Array)
    (c : RealTimeAudioCapture) :
  let out := fst (onaudioprocess log10 data c) in
  let c' := snd (onaudioprocess log10 data c) in
  errorsReported (new_events c c') = []
  /\ isRecording c' = isRecording c
  /\ held c' = held c /\ releases (new_events c c') = []
  /\ (listeners_return c -> out = Returned tt)
  /\ (forall e, out = Thrown e ->
       isRecording c = true
       /\ (call (onAudioLevel c) (calculateAudioLevel data) = Thrown e
           \/ (exists r, call (onVAD c) r = Thrown e)
           \/ (exists chunk, call (onAudioChunk c) chunk = Thrown e)))
  /\ (forall e, isRecording c = true ->
       call (onAudioLevel c) (calculateAudioLevel data) = Thrown e
       \/ (call (onAudioLevel c) (calculateAudioLevel data) = Returned tt
           /\ exists r, fst (performVAD log10 data c) = Returned r
                        /\ call (onVAD c) r = Thrown e) ->
       out = Thrown e).
Proof.
  cbv zeta.
  destruct (frame_preserves log10 data c) as (Hrec & _ & _ & _ & Hheld & _ & Herr & Hrel).
  cbv zeta in *.
  repeat split; auto.
  - apply frame_returns.
  - eapply frame_throws; eauto.
  - eapply frame_throws; eauto.
  - intros e. apply frame_propagates.
Qed.

(** C2, as stated, fails: a VAD listener that throws makes the audio
    callback throw; nothing is reported through [onError] and the object
    keeps recording with its resources. *)
Lemma C2_counterexample_uncaught_exception :
  let c := set_onVAD (Some (@failing VADResult)) recording in
  fst (onaudioprocess log10_ref loud c) = Thrown "listener failed"%string
  /\ errorsReported (trace (snd (onaudioprocess log10_ref loud c))) = []
  /\ isRecording (snd (onaudioprocess log10_ref loud c)) = true
  /\ held (snd (onaudioprocess log10_ref loud c))
     = [Processor; Analyser; Microphone; AudioContext; Stream].
Proof. vm_compute. repeat split. Qed.

(** ** Flush on silence and on a full buffer *)

Lemma length_concat_frames (chunk : nat) (frames : list Float32Array) :
  Forall (fun data => length data = chunk) frames ->
  length (concat frames) = length frames * chunk.
Proof.
  induction 1 as [ | data frames Hdata _ IH ]; cbn.
  - reflexivity.
  - rewrite length_app, IH, Hdata. reflexivity.
Qed.

(** C1, as the code has it.  A frame classified as silence is never
    appended to the buffer.  In a session that accumulates since its buffer
    was last empty, a silence frame that leaves the silence counter below
    [minSilenceFrames] changes neither the buffer nor the Segments; the one
    that takes the counter to [minSilenceFrames] emits one Segment, the
    concatenation of the frames classified as speech since accumulation
    began, in order: no silence frame is in it. *)
Theorem C1_silence_frames_are_not_buffered (log10 : float -> float)
    (frames : list Float32Array) (data : Float32Array) (c : RealTimeAudioCapture) :
  audioBuffer c = [] ->
  segments (new_events c (deliver log10 frames c)) = [] ->
  let c1 := deliver log10 frames c in
  let c2 := snd (onaudioprocess log10 data c1) in
  audioBuffer c1 <> [] ->
  classified log10 data c1 = Some false ->
  audioBuffer c1 = speech_frames log10 frames c
  /\ (S (silenceFrames c1) < minSilenceFrames c1 ->
      audioBuffer c2 = audioBuffer c1 /\ segments (new_events c1 c2) = [])
  /\ (minSilenceFrames c1 <= S (silenceFrames c1) ->
      segments (new_events c1 c2) = [concat (speech_frames log10 frames c)]).
Proof.
  intros Hempty Hnone c1 c2 Hacc Hcl.
  pose proof (buffer_accumulates log10 frames c Hnone) as Hbuf.
  rewrite Hempty in Hbuf. cbn [app] in Hbuf. fold c1 in Hbuf.
  destruct (frame_silence log10 data c1 Hcl) as (_ & _ & Hstep).
  cbv zeta in Hstep. fold c2 in Hstep.
  split; [ exact Hbuf | ]. split; intro Hcount.
  - destruct (Nat.leb_spec (minSilenceFrames c1) (S (silenceFrames c1))); [ lia | ].
    cbn [andb] in Hstep. tauto.
  - destruct (Nat.leb_spec (minSilenceFrames c1) (S (silenceFrames c1))); [ | lia ].
    destruct (audioBuffer c1) as [ | chunk rest ] eqn:Hc1; [ congruence | ].
    cbn [andb length Nat.ltb Nat.leb] in Hstep.
    rewrite <- Hbuf. tauto.
Qed.

(** C1, as stated, fails: the silence frame that follows a buffered speech
    frame is not buffered, and the Segment emitted after thirty silence
    frames holds the speech frame alone. *)
Lemma C1_counterexample_silence_dropped :
  let c1 := deliver log10_ref [loud] recording in
  audioBuffer c1 = [loud]
  /\ classified log10_ref silent c1 = Some false
  /\ S (silenceFrames c1) < minSilenceFrames c1
  /\ audioBuffer (snd (onaudioprocess log10_ref silent c1)) = [loud]
  /\ segments (trace (deliver log10_ref (loud :: repeat silent 30) recording)) = [loud]
  /\ concat (loud :: repeat silent 30) <> loud.
Proof.
  vm_compute. repeat split; try discriminate.
  repeat constructor.
Qed.

Lemma C1_witness :
  let frames := loud :: repeat silent 29 in
  let c1 := deliver log10_ref frames recording in
  speech_frames log10_ref frames recording = [loud]
  /\ segments (new_events c1 (snd (onaudioprocess log10_ref silent c1))) = [loud].
Proof.
  intros frames c1.
  assert (speech_frames log10_ref frames recording = [loud]) as Hspeech
    by (vm_compute; reflexivity).
  split; [ exact Hspeech | ].
  destruct (C1_silence_frames_are_not_buffered log10_ref frames silent recording)
    as (_ & _ & Hflush).
  - reflexivity.
  - vm_compute. reflexivity.
  - vm_compute. discriminate.
  - vm_compute. reflexivity.
  - fold c1 in Hflush. rewrite Hflush, Hspeech.
    + reflexivity.
    + vm_compute. apply le_n.
Defined.

(** C5. A stream of frames of one length, all classified as speech and
    totalling exactly [maxBufferSize] samples, delivered to a session with
    an empty buffer, yields exactly one Segment: it is emitted by the last
    frame, when the sample count reaches [maxBufferSize], it is the
    concatenation of the frames, and its length is [maxBufferSize]. *)
Theorem C5_full_buffer_flushes_once (log10 : float -> float) (chunk : nat)
    (frames : list Float32Array) (c : RealTimeAudioCapture) :
  audioBuffer c = [] -> bufferSize c = 0 ->
  0 < chunk -> frames <> [] ->
  Forall (fun data => length data = chunk) frames ->
  length frames * chunk = maxBufferSize c ->
  all_speech log10 frames c = true ->
  segments (new_events c (deliver log10 frames c)) = [concat frames]
  /\ length (concat frames) = maxBufferSize c
  /\ segments (new_events c (deliver log10 (removelast frames) c)) = [].
Proof.
  intros Hempty Hsize Hchunk Hframes Hlen Htotal Hall.
  assert (buffer_consistent c) as Hc.
  { unfold buffer_consistent. rewrite Hempty, Hsize. reflexivity. }
  rewrite (length_concat_frames _ _ Hlen).
  destruct (exists_last Hframes) as (init & final & ->).
  rewrite removelast_last.
  apply Forall_app in Hlen. destruct Hlen as [Hinit Hfinal].
  inversion Hfinal as [ | ? ? Hfinal' _ ]; subst.
  rewrite all_speech_app in Hall. apply andb_true_iff in Hall.
  destruct Hall as [Hall Hlast]. cbn [all_speech] in Hlast.
  rewrite andb_true_r in Hlast.
  rewrite length_app in Htotal. cbn [length] in Htotal.
  rewrite Nat.mul_add_distr_r, Nat.mul_1_l in Htotal.
  destruct (speech_below_cap log10 _ init c Hc Hinit Hall) as (Hnone & Hbuf & Hcount).
  { rewrite Hsize. lia. }
  cbv zeta in Hnone, Hbuf, Hcount.
  destruct (classified log10 final (deliver log10 init c)) as [ [ | ] | ] eqn:Hcl;
    try discriminate.
  destruct (frame_speech log10 final (deliver log10 init c) Hcl) as (_ & _ & Hstep).
  cbv zeta in Hstep.
  destruct (deliver_settings log10 init c) as (Hmax & _).
  rewrite Hmax, Hcount, Hsize, Hbuf, Hempty in Hstep. cbn [app Nat.add] in Hstep.
  destruct (Nat.leb_spec (maxBufferSize c) (length init * length final + length final))
    as [ _ | Hlt ]; [ | lia ].
  destruct Hstep as [Hseg _].
  repeat split; auto.
  - rewrite new_events_deliver_app. cbv zeta. rewrite segments_app, Hnone.
    cbn [deliver app]. exact Hseg.
  - rewrite length_app. cbn [length]. lia.
Qed.

Lemma C5_witness :
  let frames := repeat (repeat 0.5%float 16000) 5 in
  segments (new_events recording (deliver log10_ref frames recording)) = [concat frames]
  /\ length (concat frames) = maxBufferSize recording.
Proof.
  intro frames.
  destruct (C5_full_buffer_flushes_once log10_ref 16000 frames recording)
    as (Hone & Hlength & _).
  - reflexivity.
  - reflexivity.
  - apply Nat.ltb_lt. vm_compute. reflexivity.
  - discriminate.
  - apply Forall_forall. intros data Hdata.
    apply repeat_spec in Hdata. subst data. apply repeat_length.
  - apply Nat.eqb_eq. vm_compute. reflexivity.
  - vm_compute. reflexivity.
  - split; assumption.
Defined.
(** ** Order facts on binary64 numbers *)

Lemma SFcompare_antisym (a b : spec_float) :
  SFcompare b a = option_map CompOpp (SFcompare a b).
Proof.
  destruct a as [ sa | sa | | sa ma ea ], b as [ sb | sb | | sb mb eb ];
    try reflexivity;
    try (destruct sa; reflexivity); try (destruct sb; reflexivity);
    try (destruct sa, sb; reflexivity).
  pose proof (Pos.compare_cont_antisym ma mb Eq) as Hm. cbn [CompOpp] in Hm.
  cbn. rewrite (Z.compare_antisym ea eb), <- Hm.
  destruct sa, sb; try reflexivity;
    destruct (ea ?= eb)%Z; cbn; try reflexivity;
    destruct (Pos.compare_cont Eq ma mb); reflexivity.
Qed.

Lemma is_nan_false (x : float) : is_nan x = false -> Prim2SF x <> S754_nan.
Proof.
  unfold is_nan. rewrite eqb_spec. intros H Hnan. rewrite Hnan in H. discriminate.
Qed.

Lemma ltb_leb (a b : float) : (a <? b)%float = true -> (a <=? b)%float = true.
Proof.
  rewrite ltb_spec, leb_spec. unfold SFltb, SFleb.
  destruct (SFcompare (Prim2SF a) (Prim2SF b)) as [ [ | | ] | ]; auto.
Qed.

Lemma not_ltb_leb (a b : float) :
  is_nan a = false -> is_nan b = false ->
  (a <? b)%float = false -> (b <=? a)%float = true.
Proof.
  intros Ha Hb. apply is_nan_false in Ha, Hb.
  rewrite ltb_spec, leb_spec. unfold SFltb, SFleb.
  rewrite (SFcompare_antisym (Prim2SF a) (Prim2SF b)).
  destruct (Prim2SF a) as [ sa | sa | | sa ma ea ]; [ | | congruence | ];
    destruct (Prim2SF b) as [ sb | sb | | sb mb eb ]; try congruence;
    destruct (SFcompare _ _) as [ [ | | ] | ] eqn:Hcmp; cbn; auto; discriminate.
Qed.

(** The clamp of [performVAD]: inside [0, 1] for every number, NaN for NaN. *)
Lemma clamp_bounds (x : float) :
  is_nan x = false ->
  (0 <=? Spec.clamp x 0 1)%float = true /\ (Spec.clamp x 0 1 <=? 1)%float = true.
Proof.
  intro Hx. unfold Spec.clamp.
  assert (exists m, Math_max x 0 = m /\ is_nan m = false /\ (0 <=? m)%float = true)
    as (m & -> & Hm & Hlow).
  { unfold Math_max. rewrite Hx. cbn [orb].
    change (is_nan 0) with false. cbv iota.
    destruct (x <? 0)%float eqn:Hneg; [ exists 0%float; auto | ].
    assert ((0 <=? x)%float = true) as Hpos by (apply not_ltb_leb; auto).
    destruct (0 <? x)%float; [ exists x; auto | ].
    destruct (get_sign x); [ exists 0%float | exists x ]; auto. }
  unfold Math_min. rewrite Hm. change (is_nan 1) with false. cbn [orb]. cbv iota.
  destruct (m <? 1)%float eqn:Hlt; [ split; [ exact Hlow | apply ltb_leb, Hlt ] | ].
  destruct (1 <? m)%float eqn:Hgt; [ split; reflexivity | ].
  destruct (get_sign m); [ | split; reflexivity ].
  split; [ exact Hlow | apply not_ltb_leb; auto ].
Qed.

Lemma clamp_nan (x : float) : is_nan x = true -> is_nan (Spec.clamp x 0 1) = true.
Proof.
  intro Hx. unfold Spec.clamp, Math_max. rewrite Hx. cbn [orb].
  unfold Math_min. change (is_nan nan) with true. reflexivity.
Qed.

(** ** Classification and confidence *)

Lemma frameEnergy_spec (log10 : float -> float) (data : Float32Array) :
  frameEnergy log10 data = Spec.energy log10 1e-10 data.
Proof.
  unfold frameEnergy, Spec.energy, Spec.rms. do 4 f_equal.
  generalize 0%float. induction data as [ | x data IH ]; intro acc; cbn.
  - reflexivity.
  - apply IH.
Qed.

(** C4. The classification of a frame is the formula of the specification:
    with [e] the log-domain RMS energy of the frame, [recentAvg] the mean of
    the last five values of the energy history (the current frame included)
    and the noise estimate as [performVAD] leaves it, the frame is speech
    exactly when [recentAvg > threshold] or [e > backgroundNoise + 0.3],
    where [threshold] is the larger of [backgroundNoise + 0.5] and
    [log10 vadThreshold]. *)
Theorem C4_classification_formula (log10 : float -> float) (data : Float32Array)
    (c : RealTimeAudioCapture) :
  let c' := snd (performVAD log10 data c) in
  let e := Spec.energy log10 1e-10 data in
  let recentAvg := mean (slice_last 5 (energyHistory c')) in
  exists r,
    fst (performVAD log10 data c) = Returned r
    /\ isSpeech r
       = Spec.isSpeech log10 e recentAvg (backgroundNoise c') (vadThreshold (options c'))
    /\ (isSpeech r = true <->
        (Spec.threshold log10 (backgroundNoise c') (vadThreshold (options c'))
         <? recentAvg)%float = true
        \/ (backgroundNoise c' + 0.3 <? e)%float = true).
Proof.
  cbv zeta. rewrite <- frameEnergy_spec.
  destruct (performVAD_eq log10 data c) as (r & Hrun & Hspeech & _).
  cbv zeta in Hspeech. exists r. rewrite Hrun. fields.
  split; [ reflexivity | ]. split; [ exact Hspeech | ].
  rewrite Hspeech. unfold Spec.isSpeech. apply orb_true_iff.
Qed.

(** C7, as the code has it.  The confidence is
    [Math.min(Math.max((recentAvg - threshold) / 2, 0), 1)]; it lies in
    [0, 1] whenever [(recentAvg - threshold) / 2] is a number, and it is
    NaN when that is NaN. *)
Theorem C7_confidence_is_clamped (log10 : float -> float) (data : Float32Array)
    (c : RealTimeAudioCapture) (r : VADResult) :
  let c' := snd (performVAD log10 data c) in
  let recentAvg := mean (slice_last 5 (energyHistory c')) in
  let threshold :=
    Spec.threshold log10 (backgroundNoise c') (vadThreshold (options c')) in
  fst (performVAD log10 data c) = Returned r ->
  is_nan ((recentAvg - threshold) / 2)%float = false ->
  confidence r = Spec.clamp ((recentAvg - threshold) / 2)%float 0%float 1%float
  /\ (0 <=? confidence r)%float = true
  /\ (confidence r <=? 1)%float = true.
Proof.
  cbv zeta.
  destruct (performVAD_eq log10 data c) as (r' & Hrun & _ & Hconf & _).
  cbv zeta in Hconf. rewrite Hrun. fields.
  intros Hr Hnum. injection Hr as <-.
  unfold Spec.confidence in Hconf. rewrite Hconf.
  split; [ reflexivity | ]. apply clamp_bounds, Hnum.
Qed.

(** C7, as stated, fails: for an empty frame, and for any frame when
    [vadThreshold] is negative, the confidence is NaN, which is not in
    [0, 1]. *)
Lemma C7_counterexample_nan_confidence :
  (exists r, fst (performVAD log10_ref [] recording) = Returned r
             /\ is_nan (confidence r) = true
             /\ (0 <=? confidence r)%float = false
             /\ (confidence r <=? 1)%float = false)
  /\ (exists r,
        fst (performVAD log10_ref loud
               (new {| sampleRate := 16000; channels := 1; bitDepth := 16;
                       chunkSize := 512; vadThreshold := (-1)%float |}))
        = Returned r
        /\ is_nan (confidence r) = true
        /\ (0 <=? confidence r)%float = false
        /\ (confidence r <=? 1)%float = false).
Proof.
  split; eexists; (split; [ vm_compute; reflexivity | ]);
    vm_compute; repeat split.
Qed.

Lemma C7_witness :
  exists r, fst (performVAD log10_ref loud recording) = Returned r
            /\ confidence r = 1%float
            /\ (0 <=? confidence r)%float = true
            /\ (confidence r <=? 1)%float = true.
Proof.
  eexists. split; [ vm_compute; reflexivity | ].
  destruct (C7_confidence_is_clamped log10_ref loud recording
              {| isSpeech := true; confidence := 1;
                 energy := frameEnergy log10_ref loud |})
    as (Hclamp & Hlow & Hhigh).
  - vm_compute. reflexivity.
  - vm_compute. reflexivity.
  - repeat split; assumption.
Defined.

(** ** The noise estimate *)

Lemma insert_sorted_length (x : float) (l : list float) :
  length (insert_sorted x l) = S (length l).
Proof.
  induction l as [ | y l IH ]; cbn [insert_sorted length]; [ reflexivity | ].
  destruct (0 <? compare_numbers y x)%float; cbn [length]; [ | rewrite IH ];
    reflexivity.
Qed.

Lemma sort_numbers_length (l : list float) : length (sort_numbers l) = length l.
Proof.
  unfold sort_numbers.
  assert (forall acc, length (fold_left (fun acc x => insert_sorted x acc) l acc)
                      = length acc + length l) as H.
  { induction l as [ | x l IH ]; intro acc; cbn [fold_left length].
    - lia.
    - rewrite IH, insert_sorted_length. lia. }
  apply H.
Qed.

Lemma insert_sorted_repeat (e : float) (n : nat) :
  insert_sorted e (repeat e n) = repeat e (S n).
Proof.
  induction n as [ | n IH ]; cbn [insert_sorted repeat]; [ reflexivity | ].
  destruct (0 <? compare_numbers e e)%float; [ reflexivity | ].
  rewrite IH. reflexivity.
Qed.

Lemma sort_numbers_repeat (e : float) (n : nat) :
  sort_numbers (repeat e n) = repeat e n.
Proof.
  unfold sort_numbers.
  assert (forall k, fold_left (fun acc x => insert_sorted x acc) (repeat e n)
                      (repeat e k) = repeat e (k + n)) as H.
  { induction n as [ | n IH ]; intro k; cbn [fold_left repeat].
    - rewrite Nat.add_0_r. reflexivity.
    - rewrite insert_sorted_repeat, IH. f_equal. lia. }
  apply (H 0).
Qed.

(** [Math.floor(length * 0.1)] is the integer quotient by ten for every
    length the history of a new object can reach. *)
Lemma floor_index_tenth (n : nat) :
  n <= 21 -> floor_index (of_length n * 0.1)%float = Some (n / 10).
Proof.
  intro Hn.
  assert (forallb (fun n => match floor_index (of_length n * 0.1)%float with
                            | Some i => i =? n / 10
                            | None => false
                            end) (seq 0 22) = true) as Hall
    by (vm_compute; reflexivity).
  rewrite forallb_forall in Hall.
  specialize (Hall n). rewrite in_seq in Hall.
  destruct (floor_index (of_length n * 0.1)%float) as [ i | ].
  - f_equal. apply Nat.eqb_eq, Hall. lia.
  - discriminate Hall. lia.
Qed.

Lemma percentile10_spec (history : list float) :
  length history <= 21 ->
  percentile10 history = Spec.percentile10 (sort_numbers history).
Proof.
  intro Hlen. unfold percentile10, Spec.percentile10.
  rewrite floor_index_tenth by (rewrite sort_numbers_length; exact Hlen).
  reflexivity.
Qed.

Lemma percentile10_repeat (e : float) (n : nat) :
  0 < n <= 21 -> percentile10 (repeat e n) = e.
Proof.
  intro Hn. rewrite percentile10_spec by (rewrite repeat_length; lia).
  unfold Spec.percentile10. rewrite sort_numbers_repeat, repeat_length.
  apply nth_repeat_lt.
  apply Nat.div_lt; lia.
Qed.

Section NoiseEstimate.
Variable log10 : float -> float.

Lemma performVAD_state (data : Float32Array) (c : RealTimeAudioCapture) :
  let c' := snd (performVAD log10 data c) in
  backgroundNoise c' = noiseAfter c
  /\ energyHistory c' = historyAfter (frameEnergy log10 data) c
  /\ energyHistorySize c' = energyHistorySize c.
Proof.
  destruct (performVAD_eq log10 data c) as (r & Hrun & _).
  cbv zeta. rewrite Hrun. fields. auto.
Qed.

Lemma historyAfter_length (e : float) (c : RealTimeAudioCapture) :
  length (historyAfter e c) <= S (length (energyHistory c)).
Proof.
  unfold historyAfter. rewrite length_app. cbn [length].
  destruct (energyHistorySize c <? length (energyHistory c) + 1).
  - destruct (energyHistory c ++ [e]) eqn:Hh; cbn; [ lia | ].
    apply (f_equal (@length float)) in Hh. rewrite length_app in Hh. cbn in Hh. lia.
  - rewrite length_app. cbn. lia.
Qed.

(** Streams too short to fill the history leave the estimate alone. *)
Lemma short_stream_keeps_noise (frames : list Float32Array) (c : RealTimeAudioCapture) :
  length (energyHistory c) + length frames <= 11 ->
  backgroundNoise (feedVAD log10 frames c) = backgroundNoise c.
Proof.
  revert c. induction frames as [ | data frames IH ]; intros c Hlen; cbn [feedVAD].
  - reflexivity.
  - destruct (performVAD_state data c) as (Hnoise & Hhist & _). cbv zeta in *.
    cbn [length] in Hlen. rewrite IH.
    + rewrite Hnoise. unfold noiseAfter.
      destruct (Nat.ltb_spec 10 (length (energyHistory c))); [ lia | reflexivity ].
    + rewrite Hhist. pose proof (historyAfter_length (frameEnergy log10 data) c). lia.
Qed.

(** A stream of constant energy [e] fed to an object whose history holds
    [k] copies of [e] and has capacity twenty. *)
Lemma constant_stream (e : float) (frames : list Float32Array)
    (c : RealTimeAudioCapture) (k : nat) :
  Forall (fun data => frameEnergy log10 data = e) frames ->
  energyHistorySize c = 20 ->
  energyHistory c = repeat e (Nat.min k 20) ->
  (12 <= k -> backgroundNoise c = e) ->
  let c' := feedVAD log10 frames c in
  energyHistory c' = repeat e (Nat.min (k + length frames) 20)
  /\ (12 <= k + length frames -> backgroundNoise c' = e).
Proof.
  revert c k. induction frames as [ | data frames IH ]; intros c k Hall Hsize Hhist Hnoise.
  - cbn. rewrite Nat.add_0_r. auto.
  - inversion Hall as [ | ? ? Hdata Hrest ]; subst.
    destruct (performVAD_state data c) as (Knoise & Khist & Ksize). cbv zeta in *.
    cbn [feedVAD length].
    replace (k + S (length frames)) with (S k + length frames) by lia.
    apply IH; auto.
    + congruence.
    + rewrite Khist. unfold historyAfter. rewrite Hsize, Hhist.
      replace (repeat (frameEnergy log10 data) (Nat.min k 20) ++ [frameEnergy log10 data])
        with (repeat (frameEnergy log10 data) (S (Nat.min k 20)))
        by (rewrite <- repeat_cons; reflexivity).
      rewrite repeat_length.
      destruct (Nat.ltb_spec 20 (S (Nat.min k 20))) as [Hfull | Hroom].
      * assert (Nat.min k 20 = 20) as Hmin by lia.
        assert (Nat.min (S k) 20 = 20) as Hmin' by lia.
        rewrite Hmin, Hmin'. reflexivity.
      * f_equal. lia.
    + intro Hk. rewrite Knoise. unfold noiseAfter. rewrite Hhist, repeat_length.
      destruct (Nat.ltb_spec 10 (Nat.min k 20)) as [ _ | Hshort ]; [ | lia ].
      apply percentile10_repeat. lia.
Qed.

End NoiseEstimate.

(** C6, as the code has it.  The estimate is recomputed by a frame only
    when the history it finds, before its own energy is pushed, is longer
    than ten: a stream of at most eleven frames leaves a new object with its
    initial estimate.  After a constant-energy stream of at least twelve
    frames the estimate of a new object is the fed energy, which is the
    value at the 10th percentile of the sorted history. *)
Theorem C6_noise_estimate_of_constant_stream (log10 : float -> float)
    (opts : AudioCaptureOptions) (e : float) (frames : list Float32Array) :
  Forall (fun data => frameEnergy log10 data = e) frames ->
  12 <= length frames ->
  let c' := feedVAD log10 frames (new opts) in
  backgroundNoise c' = e
  /\ backgroundNoise c' = Spec.percentile10 (sort_numbers (energyHistory c'))
  /\ (forall c data,
        backgroundNoise (snd (performVAD log10 data c))
        = if 10 <? length (energyHistory c)
          then percentile10 (energyHistory c)
          else backgroundNoise c)
  /\ (forall short,
        length short <= 11 ->
        backgroundNoise (feedVAD log10 short (new opts)) = backgroundNoise (new opts)).
Proof.
  intros Hall Hlen c'.
  destruct (constant_stream log10 e frames (new opts) 0 Hall) as (Hhist & Hnoise);
    try reflexivity; [ cbn; lia | ].
  cbv zeta in Hhist, Hnoise. fold c' in Hhist, Hnoise. cbn [Nat.add] in *.
  specialize (Hnoise Hlen).
  split; [ exact Hnoise | ]. split; [ | split ].
  - rewrite Hhist, <- percentile10_spec by (rewrite repeat_length; lia).
    rewrite percentile10_repeat by lia. exact Hnoise.
  - intros c data. destruct (performVAD_state log10 data c) as (H & _). exact H.
  - intros short Hshort. apply short_stream_keeps_noise. cbn. exact Hshort.
Qed.

(** C6, as stated, fails: after a constant-energy stream of eleven frames
    the estimate is still the initial -6, more than five units below the fed
    energy, which is the 10th percentile of the history. *)
Lemma C6_counterexample_eleven_frames :
  let frames := repeat loud 11 in
  let c' := feedVAD log10_ref frames (new defaultOptions) in
  Forall (fun data => frameEnergy log10_ref data = frameEnergy log10_ref loud) frames
  /\ length frames = 11
  /\ backgroundNoise c' = (-6)%float
  /\ Spec.percentile10 (sort_numbers (energyHistory c')) = frameEnergy log10_ref loud
  /\ (backgroundNoise c' + 5 <? frameEnergy log10_ref loud)%float = true.
Proof.
  cbv zeta. split; [ repeat constructor | ].
  vm_compute. repeat split.
Qed.

Lemma C6_witness :
  backgroundNoise (feedVAD log10_ref (repeat loud 12) (new defaultOptions))
  = frameEnergy log10_ref loud.
Proof.
  apply (C6_noise_estimate_of_constant_stream log10_ref defaultOptions
           (frameEnergy log10_ref loud) (repeat loud 12)).
  - repeat constructor.
  - cbn. lia.
Defined.

(** ** What the VAD listener receives *)





(** * Further properties of the capture object *)

(** ** The flush *)

(** A flush hands over one array: the buffered chunks, copied in order into
    an array of [bufferSize] samples.  The copy loop never writes out of
    bounds; the only exception a flush can raise is the one its listener
    throws, and then the buffer is kept as it was. *)
Theorem flush_hands_over_the_buffer (c : RealTimeAudioCapture) :
  buffer_consistent c ->
  audioBuffer c <> [] ->
  let c' := snd (sendBufferedAudio c) in
  new_events c c' = [AudioChunkEvent (concat (audioBuffer c))]
  /\ length (concat (audioBuffer c)) = bufferSize c
  /\ fst (sendBufferedAudio c) = call (onAudioChunk c) (concat (audioBuffer c))
  /\ (forall e, fst (sendBufferedAudio c) = Thrown e ->
        audioBuffer c' = audioBuffer c /\ bufferSize c' = bufferSize c).
Proof.
  unfold buffer_consistent. intros Hc Hbuf. cbv zeta.
  rewrite sendBufferedAudio_eq.
  destruct (audioBuffer c) as [ | chunk rest ] eqn:Hchunks; [ congruence | ].
  destruct (call (onAudioChunk c) (concat (chunk :: rest))) as [ [] | e ];
    events; rewrite ?Hchunks; repeat split; auto; discriminate.
Qed.

Lemma flush_hands_over_the_buffer_witness :
  let c := deliver log10_ref [loud; loud] recording in
  new_events c (snd (sendBufferedAudio c)) = [AudioChunkEvent [0.5; 0.5]%float]
  /\ bufferSize c = 2.
Proof.
  intro c.
  destruct (flush_hands_over_the_buffer c) as (Hev & Hlen & _).
  - reflexivity.
  - vm_compute. discriminate.
  - split; [ rewrite Hev | rewrite <- Hlen ]; reflexivity.
Defined.

(** ** The energy history *)

Section History.
Variable log10 : float -> float.

Lemma frame_history (data : Float32Array) (c : RealTimeAudioCapture) :
  let c' := snd (onaudioprocess log10 data c) in
  energyHistorySize c' = energyHistorySize c
  /\ (energyHistory c' = energyHistory c
      \/ energyHistory c' = historyAfter (frameEnergy log10 data) c).
Proof.
  cbv zeta.
  frame_cases log10 data c;
    repeat match goal with
           | |- context [match ?l with [] => _ | _ :: _ => _ end] => destruct l
           | |- context [match call ?f ?v with _ => _ end] => destruct (call f v)
           end;
    fields; auto.
Qed.

Lemma historyAfter_bounded (e : float) (c : RealTimeAudioCapture) :
  length (energyHistory c) <= energyHistorySize c ->
  length (historyAfter e c) <= energyHistorySize c.
Proof.
  intro Hlen. unfold historyAfter.
  destruct (Nat.ltb_spec (energyHistorySize c) (length (energyHistory c ++ [e])))
    as [Hfull | Hroom]; [ | exact Hroom ].
  rewrite length_app in Hfull. cbn [length] in Hfull.
  destruct (energyHistory c) as [ | x older ]; cbn [app tl length] in *.
  - lia.
  - rewrite length_app. cbn [length]. lia.
Qed.

End History.

(** The energy history never outgrows its capacity: a history within
    [energyHistorySize] stays within it whatever frames are delivered, and
    the capacity itself never changes. *)
Theorem history_stays_within_capacity (log10 : float -> float)
    (frames : list Float32Array) (c : RealTimeAudioCapture) :
  length (energyHistory c) <= energyHistorySize c ->
  length (energyHistory (deliver log10 frames c)) <= energyHistorySize c
  /\ energyHistorySize (deliver log10 frames c) = energyHistorySize c.
Proof.
  revert c. induction frames as [ | data frames IH ]; intros c Hlen; cbn [deliver].
  - auto.
  - destruct (frame_history log10 data c) as (Hsize & Hhist). cbv zeta in *.
    rewrite <- Hsize. apply IH. rewrite Hsize.
    destruct Hhist as [ -> | -> ]; [ exact Hlen | apply historyAfter_bounded, Hlen ].
Qed.

Lemma history_stays_within_capacity_witness :
  length (energyHistory (deliver log10_ref (repeat loud 30) recording)) <= 20.
Proof.
  apply (history_stays_within_capacity log10_ref (repeat loud 30) recording).
  cbn. lia.
Defined.

(** ** Counters and the buffer between frames *)

(** The two frame counters are never both positive: a speech frame resets
    [silenceFrames], a silence frame resets [speechFrames], and a frame that
    is not classified touches neither. *)
Theorem counters_are_exclusive (log10 : float -> float) (frames : list Float32Array)
    (c : RealTimeAudioCapture) :
  speechFrames c = 0 \/ silenceFrames c = 0 ->
  speechFrames (deliver log10 frames c) = 0 \/ silenceFrames (deliver log10 frames c) = 0.
Proof.
  revert c. induction frames as [ | data frames IH ]; intros c Hc; cbn [deliver].
  - exact Hc.
  - apply IH.
    destruct (classified log10 data c) as [ [ | ] | ] eqn:Hcl.
    + destruct (frame_speech log10 data c Hcl) as (Hsil & _). auto.
    + destruct (frame_silence log10 data c Hcl) as (_ & Hsp & _). auto.
    + destruct (frame_unclassified log10 data c Hcl) as (_ & _ & Hsil & Hsp & _).
      rewrite Hsil, Hsp. exact Hc.
Qed.

Lemma counters_are_exclusive_witness :
  let c := deliver log10_ref [loud; silent; silent; loud; silent] recording in
  speechFrames c = 0 \/ silenceFrames c = 0.
Proof.
  apply (counters_are_exclusive log10_ref [loud; silent; silent; loud; silent] recording).
  left. reflexivity.
Defined.

(** Without speech nothing is buffered and nothing is emitted: when no
    frame of a stream is classified as speech, a session with an empty
    buffer emits no Segment, however long the silence lasts, and its buffer
    stays empty. *)
Theorem silence_alone_emits_nothing (log10 : float -> float)
    (frames : list Float32Array) (c : RealTimeAudioCapture) :
  audioBuffer c = [] ->
  speech_frames log10 frames c = [] ->
  segments (new_events c (deliver log10 frames c)) = []
  /\ audioBuffer (deliver log10 frames c) = [].
Proof.
  revert c. induction frames as [ | data frames IH ]; intros c Hempty Hnone.
  - cbn. unfold new_events. rewrite skipn_all. auto.
  - rewrite new_events_deliver_cons. cbv zeta. cbn [deliver speech_frames] in *.
    apply app_eq_nil in Hnone. destruct Hnone as [Hthis Hrest].
    assert (segments (new_events c (snd (onaudioprocess log10 data c))) = []
            /\ audioBuffer (snd (onaudioprocess log10 data c)) = []) as (Hseg & Hbuf).
    { destruct (classified log10 data c) as [ [ | ] | ] eqn:Hcl.
      - discriminate Hthis.
      - destruct (frame_silence log10 data c Hcl) as (_ & _ & Hstep).
        rewrite Hempty, andb_false_r in Hstep. cbn [length Nat.ltb Nat.leb] in Hstep.
        tauto.
      - destruct (frame_unclassified log10 data c Hcl) as (Hb & _ & _ & _ & Hs).
        rewrite Hb. auto. }
    destruct (IH _ Hbuf Hrest) as (Kseg & Kbuf).
    rewrite segments_app, Hseg, Kseg. auto.
Qed.

Lemma silence_alone_emits_nothing_witness :
  segments (trace (deliver log10_ref (repeat silent 100) recording)) = []
  /\ audioBuffer (deliver log10_ref (repeat silent 100) recording) = [].
Proof.
  destruct (silence_alone_emits_nothing log10_ref (repeat silent 100) recording)
    as (Hseg & Hbuf).
  - reflexivity.
  - vm_compute. reflexivity.
  - split; [ exact Hseg | exact Hbuf ].
Defined.

(** The forced flush keeps the buffer below the cap: while the chunk
    listener returns, a sample count below [maxBufferSize] is below it again
    after every delivered frame. *)
Theorem buffer_stays_below_the_cap (log10 : float -> float)
    (frames : list Float32Array) (c : RealTimeAudioCapture) :
  (forall chunk, call (onAudioChunk c) chunk = Returned tt) ->
  bufferSize c < maxBufferSize c ->
  bufferSize (deliver log10 frames c) < maxBufferSize c.
Proof.
  revert c. induction frames as [ | data frames IH ]; intros c Hret Hlt; cbn [deliver].
  - exact Hlt.
  - destruct (frame_preserves log10 data c) as (_ & Hmax & _ & Hlistener & _).
    cbv zeta in *. rewrite <- Hmax. apply IH.
    + rewrite Hlistener. exact Hret.
    + rewrite Hmax.
      destruct (classified log10 data c) as [ [ | ] | ] eqn:Hcl.
      * destruct (frame_speech log10 data c Hcl) as (_ & _ & Hstep). cbv zeta in Hstep.
        rewrite Hret in Hstep.
        destruct (Nat.leb_spec (maxBufferSize c) (bufferSize c + length data));
          [ destruct Hstep as (_ & _ & ->); lia | destruct Hstep as (_ & _ & ->); lia ].
      * destruct (frame_silence log10 data c Hcl) as (_ & _ & Hstep).
        rewrite Hret in Hstep.
        destruct ((minSilenceFrames c <=? S (silenceFrames c))
                  && (0 <? length (audioBuffer c)));
          [ destruct Hstep as (_ & _ & ->); lia | destruct Hstep as (_ & _ & ->); lia ].
      * destruct (frame_unclassified log10 data c Hcl) as (_ & -> & _). exact Hlt.
Qed.

Lemma buffer_stays_below_the_cap_witness :
  bufferSize (deliver log10_ref (repeat (repeat 0.5%float 16000) 7) recording)
  < maxBufferSize recording.
Proof.
  apply (buffer_stays_below_the_cap log10_ref (repeat (repeat 0.5%float 16000) 7)
           recording).
  - intro chunk. reflexivity.
  - apply Nat.ltb_lt. vm_compute. reflexivity.
Defined.

(** ** After a stop *)

Lemma deliver_not_recording (log10 : float -> float) (frames : list Float32Array)
    (c : RealTimeAudioCapture) :
  isRecording c = false -> deliver log10 frames c = c.
Proof.
  intro Hrec. induction frames as [ | data frames IH ]; cbn [deliver].
  - reflexivity.
  - rewrite onaudioprocess_eq, Hrec. exact IH.
Qed.

(** Once [stopRecording] or [cleanup] has been called, whatever its
    outcome, frames that the host still delivers change nothing: no level,
    no VAD result, no update of the noise estimate, nothing buffered. *)
Theorem frames_after_stop_are_ignored (log10 : float -> float)
    (frames : list Float32Array) (c : RealTimeAudioCapture) :
  deliver log10 frames (snd (stopRecording c)) = snd (stopRecording c)
  /\ deliver log10 frames (snd (cleanup c)) = snd (cleanup c).
Proof.
  destruct (stopRecording_events c) as (_ & _ & Hrec).
  split; apply deliver_not_recording; [ exact Hrec | ].
  rewrite cleanup_eq.
  destruct (stopRecording c) as [ [ [] | e ] c1 ]; fields; exact Hrec.
Qed.

(** A second [stopRecording] emits nothing when the first one returned; when
    the chunk listener threw, the buffer was kept and the second stop hands
    over the same Segment again. *)
Theorem second_stop (c : RealTimeAudioCapture) :
  let c1 := snd (stopRecording c) in
  let c2 := snd (stopRecording c1) in
  match fst (stopRecording c) with
  | Returned _ => stopRecording c1 = (Returned tt, c1)
  | Thrown _ =>
      new_events c1 c2 = new_events c c1
      /\ new_events c c1 = [AudioChunkEvent (concat (audioBuffer c))]
  end.
Proof.
  cbv zeta. rewrite (stopRecording_eq c).
  destruct (audioBuffer c) as [ | chunk rest ] eqn:Hbuf.
  - cbn [fst snd]. rewrite stopRecording_eq. fields. rewrite Hbuf.
    destruct c; reflexivity.
  - destruct (call (onAudioChunk c) (concat (chunk :: rest))) as [ [] | e ] eqn:Hcall;
      cbn [fst snd].
    + rewrite stopRecording_eq. fields. reflexivity.
    + rewrite stopRecording_eq. fields. rewrite Hbuf, Hcall. cbn [snd].
      assert (new_events c (flushed (set_isRecording false c))
              = [AudioChunkEvent (concat (chunk :: rest))]) as Hfirst.
      { apply new_events_app. fields. rewrite Hbuf. reflexivity. }
      rewrite Hfirst. split; [ | reflexivity ].
      apply new_events_app. fields. rewrite Hbuf. reflexivity.
Qed.

(** [cleanup] releases all or nothing: it returns exactly when its final
    flush returns, and then it has released every resource the object held,
    in the order processor, analyser, microphone, audio context, stream;
    when it throws it has released none of them. *)
Theorem cleanup_all_or_nothing (c : RealTimeAudioCapture) :
  let c' := snd (cleanup c) in
  (flush_returns c <-> fst (cleanup c) = Returned tt)
  /\ match fst (cleanup c) with
     | Returned _ => releases (new_events c c') = held c /\ held c' = []
     | Thrown _ => releases (new_events c c') = [] /\ held c' = held c
     end.
Proof.
  cbv zeta. split; [ apply cleanup_returns | ].
  rewrite cleanup_events, releases_app.
  destruct (stopRecording_events c) as (Hev & Hheld & _).
  assert (releases (new_events c (snd (stopRecording c))) = []) as ->.
  { rewrite Hev. destruct (audioBuffer c); reflexivity. }
  rewrite cleanup_eq in *.
  destruct (stopRecording c) as [ [ [] | e ] c1 ]; cbn [fst snd app] in *.
  - split; [ apply releases_map | reflexivity ].
  - auto.
Qed.

(** * Acquiring the device *)

Ltac host_step :=
  cbv beta iota delta
    [bind ret get modify lift notify fst snd negb
     stream audioContext processor analyser microphone isRecording audioBuffer
     bufferSize maxBufferSize energyHistory energyHistorySize silenceFrames
     speechFrames minSpeechFrames minSilenceFrames backgroundNoise onAudioChunk
     onVAD onError onAudioLevel options trace
     set_stream set_audioContext set_processor set_analyser set_microphone set_trace].

Ltac host_cases host c :=
  unfold initialize, host_succeeds, try_catch;
  destruct c as [st ac pr an mi rec buf size maxb hist hsize sil sp minsp minsil
                 bn oc ov oe ol opts tr];
  host_step;
  destruct (mediaDevicesSupported host); host_step;
  [ destruct (getUserMedia host) as [ ? | ? ]; host_step;
    [ destruct (newAudioContext host) as [ ? | ? ]; host_step;
      [ destruct (createMediaStreamSource host) as [ ? | ? ]; host_step;
        [ destruct (createAnalyser host) as [ ? | ? ]; host_step;
          [ destruct (createScriptProcessor host (chunkSize opts)) as [ ? | ? ];
            host_step;
            [ destruct (connectNodes host) as [ [] | ? ]; host_step | ]
          | ]
        | ]
      | ]
    | ]
  | ];
  cbn [negb andb].

(** What a [cleanup] whose flush returns has done. *)
Lemma cleanup_all_or_nothing_aux (c : RealTimeAudioCapture) :
  flush_returns c ->
  fst (cleanup c) = Returned tt
  /\ releases (new_events c (snd (cleanup c))) = held c
  /\ held (snd (cleanup c)) = [].
Proof.
  intro Hflush.
  pose proof (proj1 (cleanup_returns c) Hflush) as Hret.
  destruct (cleanup_released c Hflush) as (Hheld & _).
  repeat split; auto.
  rewrite cleanup_events, Hret, releases_app, releases_map.
  destruct (stopRecording_events c) as (Hev & _). rewrite Hev.
  destruct (audioBuffer c); reflexivity.
Qed.

Lemma initialize_untouched (host : Host) (c : RealTimeAudioCapture) :
  let c' := snd (initialize host c) in
  audioBuffer c' = audioBuffer c /\ bufferSize c' = bufferSize c
  /\ isRecording c' = isRecording c /\ onAudioChunk c' = onAudioChunk c
  /\ trace c' = trace c ++ new_events c c'
  /\ segments (new_events c c') = [] /\ releases (new_events c c') = [].
Proof.
  cbv zeta. host_cases host c;
    repeat match goal with
           | |- context [call ?f ?v] => destruct (call f v) as [ [] | ? ]
           end;
    events; rewrite ?app_nil_r; auto 10.
Qed.

(** [initialize] returns [true] exactly when the browser supports media
    devices and every host call succeeds, and then the object holds all five
    resources and nothing was reported; otherwise it returns [false] and
    hands exactly one error to [onError].  (The error listener is assumed to
    return.) *)
Theorem initialize_succeeds_or_reports_once (host : Host) (c : RealTimeAudioCapture) :
  (forall error, call (onError c) error = Returned tt) ->
  let c' := snd (initialize host c) in
  fst (initialize host c) = Returned (host_succeeds host c)
  /\ (if host_succeeds host c
      then errorsReported (new_events c c') = []
           /\ held c' = [Processor; Analyser; Microphone; AudioContext; Stream]
      else length (errorsReported (new_events c c')) = 1).
Proof.
  intro Hlistener. cbv zeta. unfold held, holds.
  host_cases host c; rewrite ?Hlistener; events; auto.
Qed.

Lemma initialize_succeeds_or_reports_once_witness :
  initialize workingHost (new defaultOptions) = (Returned true, initialized)
  /\ fst (initialize workingHost (new defaultOptions))
     = Returned (host_succeeds workingHost (new defaultOptions)).
Proof.
  split; [ reflexivity | ].
  apply (initialize_succeeds_or_reports_once workingHost (new defaultOptions)).
  intro error. reflexivity.
Defined.

(** A failed [initialize] does not undo what it had acquired: when the
    microphone was granted and the audio context cannot be created, the
    stream stays held.  Whatever [initialize] did, a [cleanup] of an object
    with an empty buffer then returns, releases exactly what is held and
    leaves nothing. *)
Theorem failed_initialize_is_undone_by_cleanup (host : Host) (c : RealTimeAudioCapture) :
  audioBuffer c = [] ->
  let c1 := snd (initialize host c) in
  let c2 := snd (cleanup c1) in
  fst (cleanup c1) = Returned tt
  /\ releases (new_events c1 c2) = held c1
  /\ held c2 = []
  /\ (forall stream error,
        mediaDevicesSupported host = true ->
        getUserMedia host = Returned stream ->
        newAudioContext host = Thrown error ->
        held c = [] ->
        held c1 = [Stream]).
Proof.
  intros Hbuf c1 c2.
  destruct (initialize_untouched host c) as (Hsame & _). fold c1 in Hsame.
  assert (flush_returns c1) as Hflush.
  { unfold flush_returns. rewrite Hsame, Hbuf. exact I. }
  destruct (cleanup_all_or_nothing_aux c1 Hflush) as (Hret & Hrel & Hheld).
  fold c2 in Hrel, Hheld.
  repeat split; auto.
  intros stream error Hsupported Hstream Hcontext Hnone.
  subst c1. unfold initialize, try_catch. run_method.
  rewrite Hsupported, Hstream, Hcontext. cbn [negb]. fields.
  unfold held, holds in *. fields.
  destruct (call (onError c) error) as [ [] | ? ]; fields;
    destruct (processor c), (analyser c), (microphone c), (audioContext c);
    try discriminate; reflexivity.
Qed.

Lemma failed_initialize_is_undone_by_cleanup_witness :
  let c1 := snd (initialize noContextHost (new defaultOptions)) in
  fst (initialize noContextHost (new defaultOptions)) = Returned false
  /\ held c1 = [Stream]
  /\ held (snd (cleanup c1)) = [].
Proof.
  intro c1.
  destruct (failed_initialize_is_undone_by_cleanup noContextHost (new defaultOptions))
    as (_ & _ & Hnone & Hpartial).
  - reflexivity.
  - split; [ reflexivity | ]. split; [ | exact Hnone ].
    apply (Hpartial 1 "NotSupportedError"%string); reflexivity.
Defined.

(** ** Starting *)

Lemma startRecording_eq (suspended : bool) (resume : outcome unit)
    (c : RealTimeAudioCapture) :
  startRecording suspended resume c =
  match audioContext c with
  | None => (Returned false, c)
  | Some _ =>
      match (if suspended then resume else Returned tt) with
      | Returned _ => (Returned true, set_isRecording true c)
      | Thrown error =>
          (match call (onError c) error with
           | Returned _ => Returned false
           | Thrown e => Thrown e
           end,
           set_trace (trace c ++ [ErrorEvent error]) c)
      end
  end.
Proof.
  unfold startRecording, try_catch. run_method.
  destruct (audioContext c); [ | reflexivity ].
  destruct suspended; [ destruct resume as [ [] | error ] | ]; try reflexivity.
  destruct (call (onError c) error) as [ [] | e ]; reflexivity.
Qed.

(** [startRecording] on an object with an audio context: it sets
    [isRecording] and returns [true], unless the context is suspended and
    cannot be resumed; then the error goes to [onError], [isRecording] is
    left as it was and the result is [false].  In both cases the buffer and
    the resources are untouched and no Segment is emitted. *)
Theorem startRecording_outcome (suspended : bool) (resume : outcome unit)
    (c : RealTimeAudioCapture) :
  audioContext c <> None ->
  let out := fst (startRecording suspended resume c) in
  let c' := snd (startRecording suspended resume c) in
  audioBuffer c' = audioBuffer c /\ held c' = held c
  /\ segments (new_events c c') = []
  /\ match (if suspended then resume else Returned tt) with
     | Returned _ => out = Returned true /\ isRecording c' = true /\ new_events c c' = []
     | Thrown error =>
         new_events c c' = [ErrorEvent error]
         /\ isRecording c' = isRecording c
         /\ (call (onError c) error = Returned tt -> out = Returned false)
     end.
Proof.
  intro Hcontext. cbv zeta. rewrite startRecording_eq. unfold held.
  destruct (audioContext c) as [ context | ] eqn:Hc; [ | congruence ].
  destruct (if suspended then resume else Returned tt) as [ [] | error ].
  - fields. rewrite ?Hc. events. repeat split; auto;
      try (unfold new_events; fields; apply skipn_all).
  - fields. rewrite ?Hc. events. repeat split; auto.
    intros ->. reflexivity.
Qed.

Lemma startRecording_outcome_witness :
  startRecording true (Returned tt) initialized = (Returned true, recording)
  /\ isRecording (snd (startRecording true (Thrown "NotAllowedError"%string)
                         initialized)) = false.
Proof.
  split; [ reflexivity | ].
  destruct (startRecording_outcome true (Thrown "NotAllowedError"%string) initialized)
    as (_ & _ & _ & _ & Hrec & _).
  - discriminate.
  - rewrite Hrec. reflexivity.
Defined.

(** Without an audio context [startRecording] returns [false] and does
    nothing, not even a report to [onError]; this is the case after every
    [cleanup] that returned, so a cleaned-up object cannot record again
    until it is initialised anew, and [initialize] on it acquires the five
    resources again. *)
Theorem no_recording_after_cleanup (suspended : bool) (resume : outcome unit)
    (c : RealTimeAudioCapture) :
  flush_returns c ->
  let c' := snd (cleanup c) in
  startRecording suspended resume c' = (Returned false, c')
  /\ (forall host,
        host_succeeds host c' = true ->
        held (snd (initialize host c'))
        = [Processor; Analyser; Microphone; AudioContext; Stream]
        /\ fst (startRecording suspended (Returned tt) (snd (initialize host c')))
           = Returned true).
Proof.
  intros Hflush c'.
  destruct (cleanup_all_or_nothing_aux c Hflush) as (_ & _ & Hheld). fold c' in Hheld.
  assert (audioContext c' = None) as Hcontext.
  { unfold held, holds in Hheld.
    destruct (processor c'), (analyser c'), (microphone c'), (audioContext c');
      try discriminate; reflexivity. }
  split.
  - rewrite startRecording_eq, Hcontext. reflexivity.
  - intros host Hhost. rewrite startRecording_eq.
    revert Hhost. clear. unfold held, holds.
    host_cases host c'; try discriminate; intros _;
      destruct suspended; auto.
Qed.

Lemma no_recording_after_cleanup_witness :
  let c := deliver log10_ref [loud] recording in
  fst (startRecording false (Returned tt) (snd (cleanup c))) = Returned false
  /\ isRecording (snd (cleanup c)) = false.
Proof.
  intro c.
  destruct (no_recording_after_cleanup false (Returned tt) c) as (Hstart & _).
  - vm_compute. reflexivity.
  - rewrite Hstart. split; reflexivity.
Defined.

(** * Error utilities *)

Module ErrorHandlingProofs.
Import ErrorHandling.

Section Retry.
Variable T : Type.
Variable operation : nat -> Settled T.
Variables maxRetries delay : nat.

Lemma retryLoop_step (remaining i : nat) (lastError : option Exception) :
  retryLoop operation maxRetries delay (S remaining) i lastError
  = match operation i with
    | Resolved value => {| settled := Resolved value; calls := 1; waits := [] |}
    | Rejected error =>
        if nonRecoverable error
        then {| settled := Rejected error; calls := 1; waits := [] |}
        else
          let rest := retryLoop operation maxRetries delay remaining (S i)
                        (Some (asError error)) in
          {| settled := settled rest; calls := S (calls rest);
             waits := (if i <? maxRetries - 1 then [delay * 2 ^ i] else [])
                      ++ waits rest |}
    end.
Proof. reflexivity. Qed.

Local Abbreviation rejected_recoverably j :=
  (exists error, operation j = Rejected error /\ nonRecoverable error = false).

(** The loop up to the call that ends it by resolving or by a
    non-recoverable rejection. *)
Lemma loop_until (k : nat) (final : Settled T) :
  (match final with
   | Resolved _ => True
   | Rejected error => nonRecoverable error = true
   end) ->
  forall remaining i lastError,
    i + remaining = maxRetries ->
    k < remaining ->
    (forall j, j < k -> rejected_recoverably (i + j)) ->
    operation (i + k) = final ->
    retryLoop operation maxRetries delay remaining i lastError
    = {| settled := final; calls := S k;
         waits := map (fun j => delay * 2 ^ j) (seq i k) |}.
Proof.
  intro Hfinal. induction k as [ | k IH ]; intros remaining i lastError Hsum Hk Hfail Hend.
  - destruct remaining as [ | remaining ]; [ lia | ]. rewrite retryLoop_step.
    rewrite Nat.add_0_r in Hend. rewrite Hend.
    destruct final as [ value | error ]; [ reflexivity | ].
    rewrite Hfinal. reflexivity.
  - destruct remaining as [ | remaining ]; [ lia | ]. rewrite retryLoop_step.
    destruct (Hfail 0) as (error & Hop & Hrec); [ lia | ].
    rewrite Nat.add_0_r in Hop. rewrite Hop, Hrec. cbv zeta.
    rewrite (IH remaining (S i) (Some (asError error))); try lia.
    + cbn [settled calls waits seq map].
      destruct (Nat.ltb_spec i (maxRetries - 1)); [ reflexivity | lia ].
    + intros j Hj. replace (S i + j) with (i + S j) by lia. apply Hfail. lia.
    + replace (S i + k) with (i + S k) by lia. exact Hend.
Qed.

(** The loop when every remaining call is rejected recoverably. *)
Lemma loop_exhausted (remaining : nat) :
  forall i lastError error,
    i + S remaining = maxRetries ->
    (forall j, j < S remaining -> rejected_recoverably (i + j)) ->
    operation (i + remaining) = Rejected error ->
    retryLoop operation maxRetries delay (S remaining) i lastError
    = {| settled := Rejected (asError error); calls := S remaining;
         waits := map (fun j => delay * 2 ^ j) (seq i remaining) |}.
Proof.
  induction remaining as [ | remaining IH ]; intros i lastError error Hsum Hfail Hlast.
  - rewrite retryLoop_step. rewrite Nat.add_0_r in Hlast.
    destruct (Hfail 0) as (error' & Hop & Hrec); [ lia | ].
    rewrite Nat.add_0_r in Hop. rewrite Hlast in Hop. injection Hop as <-.
    rewrite Hlast, Hrec. cbn [retryLoop settled calls waits seq map].
    destruct (Nat.ltb_spec i (maxRetries - 1)); [ lia | reflexivity ].
  - rewrite retryLoop_step.
    destruct (Hfail 0) as (error' & Hop & Hrec); [ lia | ].
    rewrite Nat.add_0_r in Hop. rewrite Hop, Hrec. cbv zeta.
    rewrite (IH (S i) (Some (asError error')) error); try lia.
    + cbn [settled calls waits seq map].
      destruct (Nat.ltb_spec i (maxRetries - 1)); [ reflexivity | lia ].
    + intros j Hj. replace (S i + j) with (i + S j) by lia. apply Hfail. lia.
    + replace (S i + remaining) with (i + S remaining) by lia. exact Hlast.
Qed.

Lemma loop_bounds (remaining : nat) :
  forall i lastError,
    calls (retryLoop operation maxRetries delay remaining i lastError) <= remaining
    /\ length (waits (retryLoop operation maxRetries delay remaining i lastError))
       <= calls (retryLoop operation maxRetries delay remaining i lastError)
    /\ (forall text,
          settled (retryLoop operation maxRetries delay remaining i lastError) = Rejected (OtherValue text) ->
          lastError = Some (OtherValue text)).
Proof.
  induction remaining as [ | remaining IH ]; intros i lastError.
  - cbn. repeat split; auto.
    intros text H. destruct lastError; [ congruence | discriminate ].
  - rewrite retryLoop_step.
    destruct (operation i) as [ value | error ];
      [ cbn; repeat split; auto; try lia; discriminate | ].
    destruct (nonRecoverable error) eqn:Hrec.
    + cbn. repeat split; auto; try lia.
      intros text H. injection H as ->. discriminate.
    + destruct (IH (S i) (Some (asError error))) as (Hcalls & Hwaits & Hother).
      cbv zeta. cbn [settled calls waits]. rewrite length_app.
      repeat split; try lia.
      * destruct (i <? maxRetries - 1); cbn [length]; lia.
      * intros text H. apply Hother in H. destruct error; discriminate.
Qed.

End Retry.

Lemma backoff_total (delay k : nat) :
  list_sum (backoff delay k) = delay * (2 ^ k - 1).
Proof.
  unfold backoff. induction k as [ | k IH ].
  - cbn. lia.
  - rewrite seq_S, map_app, list_sum_app, IH. cbn [map list_sum Nat.add].
    assert (1 <= 2 ^ k) by (apply Nat.neq_0_lt_0, Nat.pow_nonzero; discriminate).
    cbn [Nat.pow]. destruct (2 ^ k) as [ | p ]; [ lia | ].
    replace (S p - 1) with p by lia.
    replace (2 * S p - 1) with (p + S p) by lia.
    rewrite Nat.mul_add_distr_l. unfold list_sum. cbn [fold_right]. lia.
Qed.

(** [withRetry] resolves with the value of the first call that resolves,
    provided that call is among the first [maxRetries] and every call before
    it was rejected with an error that allows a retry; it has then called
    the operation once per attempt and waited [delay * 2^i] after the failed
    attempt [i]. *)
Theorem withRetry_first_success (T : Type) (operation : nat -> Settled T)
    (maxRetries delay k : nat) (value : T) :
  k < maxRetries ->
  retried operation k ->
  operation k = Resolved value ->
  withRetry operation maxRetries delay
  = {| settled := Resolved value; calls := S k; waits := backoff delay k |}.
Proof.
  intros Hk Hfail Hok. unfold withRetry, backoff.
  apply (loop_until T operation maxRetries delay k (Resolved value) I); auto.
Qed.

Lemma withRetry_first_success_witness :
  withRetry (fun i => if i <? 2
                      then Rejected (NetworkError "offline" None)
                      else Resolved i) 3 1000
  = {| settled := Resolved 2; calls := 3; waits := [1000; 2000] |}.
Proof.
  apply (withRetry_first_success nat _ 3 1000 2 2).
  - lia.
  - intros j Hj. exists (NetworkError "offline" None).
    destruct j as [ | [ | j ] ]; [ | | lia ]; split; reflexivity.
  - reflexivity.
Defined.

(** A rejection by a non-recoverable [AppError] ends [withRetry] at once:
    the very error is rethrown, the operation is not called again and there
    is no wait after the failed call.  A [ModelError] is such an error. *)
Theorem withRetry_stops_on_non_recoverable (T : Type) (operation : nat -> Settled T)
    (maxRetries delay k : nat) (error : Exception) :
  k < maxRetries ->
  retried operation k ->
  operation k = Rejected error ->
  nonRecoverable error = true ->
  withRetry operation maxRetries delay
  = {| settled := Rejected error; calls := S k; waits := backoff delay k |}.
Proof.
  intros Hk Hfail Hop Hfatal. unfold withRetry, backoff.
  apply (loop_until T operation maxRetries delay k (Rejected error) Hfatal); auto.
Qed.

Lemma withRetry_stops_on_non_recoverable_witness :
  withRetry (fun _ : nat => @Rejected nat (ModelError "model missing" None)) 3 1000
  = {| settled := Rejected (ModelError "model missing" None); calls := 1; waits := [] |}.
Proof.
  apply (withRetry_stops_on_non_recoverable nat _ 3 1000 0).
  - lia.
  - intros j Hj. lia.
  - reflexivity.
  - reflexivity.
Defined.

(** When all [maxRetries] calls are rejected with errors that allow a
    retry, [withRetry] rejects with the last error (wrapped in an [Error]
    when it was not one), after exactly [maxRetries] calls and
    [maxRetries - 1] waits: there is no wait after the last attempt, and
    the waits add up to [delay * (2^(maxRetries - 1) - 1)]. *)
Theorem withRetry_exhausted (T : Type) (operation : nat -> Settled T)
    (maxRetries delay : nat) (error : Exception) :
  0 < maxRetries ->
  retried operation maxRetries ->
  operation (maxRetries - 1) = Rejected error ->
  withRetry operation maxRetries delay
  = {| settled := Rejected (asError error); calls := maxRetries;
       waits := backoff delay (maxRetries - 1) |}
  /\ list_sum (waits (withRetry operation maxRetries delay))
     = delay * (2 ^ (maxRetries - 1) - 1).
Proof.
  intros Hpos Hfail Hlast.
  assert (withRetry operation maxRetries delay
          = {| settled := Rejected (asError error); calls := maxRetries;
               waits := backoff delay (maxRetries - 1) |}) as Hrun.
  { unfold withRetry, backoff.
    destruct maxRetries as [ | n ]; [ lia | ].
    replace (S n - 1) with n in * by lia.
    apply (loop_exhausted T operation (S n) delay n 0 None error); auto. }
  split; [ exact Hrun | ]. rewrite Hrun. apply backoff_total.
Qed.

Lemma withRetry_exhausted_witness :
  withRetry (fun _ : nat => @Rejected nat (OtherValue "busy")) 3 1000
  = {| settled := Rejected (ErrorValue "busy"); calls := 3; waits := [1000; 2000] |}.
Proof.
  apply (withRetry_exhausted nat _ 3 1000 (OtherValue "busy")).
  - lia.
  - intros j Hj. exists (OtherValue "busy"). split; reflexivity.
  - reflexivity.
Defined.

(** Whatever the operation does, [withRetry] calls it at most [maxRetries]
    times, waits at most once per call, and never rejects with a value that
    is not an [Error]; with [maxRetries = 0] it rejects with its own
    [Error] without calling the operation. *)
Theorem withRetry_bounds (T : Type) (operation : nat -> Settled T)
    (maxRetries delay : nat) :
  let run := withRetry operation maxRetries delay in
  calls run <= maxRetries
  /\ length (waits run) <= calls run
  /\ (forall text, settled run <> Rejected (OtherValue text))
  /\ (maxRetries = 0 ->
      run = {| settled := Rejected (ErrorValue "Operation failed after retries");
               calls := 0; waits := [] |}).
Proof.
  cbv zeta. unfold withRetry.
  destruct (loop_bounds T operation maxRetries delay maxRetries 0 None)
    as (Hcalls & Hwaits & Hother).
  repeat split; auto.
  - intros text H. apply Hother in H. discriminate.
  - intros ->. reflexivity.
Qed.

(** [handleError] is stable on what it returns for values that are not
    [AppError]s: handling an [Error] whose message is a text [handleError]
    produced gives that text again. *)
Theorem handleError_is_stable (error : Exception) :
  (forall name message code recoverable,
     error <> AppErrorValue name message code recoverable) ->
  handleError (ErrorValue (handleError error)) = handleError error.
Proof.
  intro Hplain.
  destruct error as [ name message code recoverable | message | text ].
  - exfalso. eapply Hplain. reflexivity.
  - cbn [handleError].
    destruct (includes "network" message || includes "fetch" message) eqn:H1;
      [ reflexivity | ].
    destruct (includes "permission" message || includes "access" message) eqn:H2;
      [ reflexivity | ].
    destruct (includes "memory" message || includes "heap" message) eqn:H3;
      [ reflexivity | ].
    destruct (includes "timeout" message) eqn:H4; [ reflexivity | ].
    destruct (includes "model" message) eqn:H5; [ reflexivity | ].
    cbn [handleError]. rewrite H1, H2, H3, H4, H5. reflexivity.
  - reflexivity.
Qed.

Lemma handleError_is_stable_witness :
  handleError (ErrorValue "Failed to fetch")
  = "Network error. Please check your connection and try again."%string
  /\ handleError (ErrorValue (handleError (ErrorValue "Failed to fetch")))
     = handleError (ErrorValue "Failed to fetch").
Proof.
  split; [ reflexivity | ].
  apply handleError_is_stable. intros; discriminate.
Defined.

End ErrorHandlingProofs.

(** * The transcription manager *)

Lemma cleanup_trace (c : RealTimeAudioCapture) :
  trace (snd (cleanup c)) = trace c ++ new_events c (snd (cleanup c)).
Proof.
  rewrite cleanup_events.
  pose proof (stopRecording_trace c) as Htrace.
  destruct (stopRecording_events c) as (_ & Hheld & _).
  rewrite cleanup_eq.
  destruct (stopRecording c) as [ [ [] | e ] c1 ]; cbn [fst snd] in *.
  - fields. rewrite Htrace, Hheld, app_assoc. reflexivity.
  - rewrite app_nil_r. exact Htrace.
Qed.

Lemma stopTranscription_eq (m : Manager.RealTimeTranscriptionManager) :
  Manager.wired m ->
  Manager.stopTranscription m
  = (Returned tt,
     {| Manager.audioCapture := snd (stopRecording (Manager.audioCapture m));
        Manager.isTranscribing := false;
        Manager.sessionId :=
          if Manager.isBrowserMode m then None else Manager.sessionId m;
        Manager.recognition := None;
        Manager.isBrowserMode := Manager.isBrowserMode m;
        Manager.accepted := Manager.accepted m |}).
Proof.
  unfold Manager.wired, Manager.stopTranscription, Manager.onCapture, Manager.accepts.
  intro Hwired.
  cbn [Manager.audioCapture Manager.isTranscribing Manager.sessionId
       Manager.recognition Manager.isBrowserMode Manager.accepted].
  rewrite andb_false_r. cbn [andb]. rewrite app_nil_r.
  rewrite stopRecording_eq.
  destruct (audioBuffer (Manager.audioCapture m)) as [ | chunk rest ];
    [ reflexivity | ].
  rewrite Hwired. reflexivity.
Qed.

(** Stopping a transcription hands the capture's last Segment to the chunk
    listener, and the listener drops it: [isTranscribing] is already
    [false] when [stopRecording] flushes, so no chunk is accepted for the
    backend during a stop. *)
Theorem final_segment_is_not_accepted (m : Manager.RealTimeTranscriptionManager) :
  Manager.wired m ->
  let m' := snd (Manager.stopTranscription m) in
  fst (Manager.stopTranscription m) = Returned tt
  /\ Manager.accepted m' = Manager.accepted m
  /\ Manager.isTranscribing m' = false
  /\ new_events (Manager.audioCapture m) (Manager.audioCapture m')
     = match audioBuffer (Manager.audioCapture m) with
       | [] => []
       | _ :: _ => [AudioChunkEvent (concat (audioBuffer (Manager.audioCapture m)))]
       end.
Proof.
  intro Hwired. cbv zeta. rewrite (stopTranscription_eq m Hwired).
  cbn [fst snd Manager.accepted Manager.isTranscribing Manager.audioCapture].
  repeat split. apply stopRecording_events.
Qed.

Lemma final_segment_is_not_accepted_witness :
  let m := Manager.frames log10_ref [loud; loud] Manager.session in
  audioBuffer (Manager.audioCapture m) = [loud; loud]
  /\ Manager.accepted (snd (Manager.stopTranscription m)) = []
  /\ segments (trace (Manager.audioCapture (snd (Manager.stopTranscription m))))
     = [loud ++ loud].
Proof.
  intro m.
  destruct (final_segment_is_not_accepted m) as (_ & Hsame & _).
  - reflexivity.
  - rewrite Hsame. repeat split; vm_compute; reflexivity.
Defined.

(** The manager's [cleanup] always releases the device: its chunk listener
    cannot throw, so the capture's [cleanup] returns and leaves no resource
    held.  The buffer is flushed by the stop that comes first, the capture's
    own stop finds it empty, and no chunk is accepted. *)
Theorem manager_cleanup_releases_the_device (m : Manager.RealTimeTranscriptionManager) :
  Manager.wired m ->
  let c := Manager.audioCapture m in
  let m' := snd (Manager.cleanup m) in
  let c' := Manager.audioCapture m' in
  fst (Manager.cleanup m) = Returned tt
  /\ held c' = []
  /\ releases (trace c') = releases (trace c) ++ held c
  /\ segments (trace c')
     = segments (trace c)
       ++ match audioBuffer c with
          | [] => []
          | _ :: _ => [concat (audioBuffer c)]
          end
  /\ Manager.accepted m' = Manager.accepted m.
Proof.
  intro Hwired. cbv zeta. unfold Manager.cleanup.
  rewrite (stopTranscription_eq m Hwired). cbn [snd].
  unfold Manager.onCapture, Manager.accepts.
  cbn [Manager.audioCapture Manager.isTranscribing Manager.sessionId
       Manager.recognition Manager.isBrowserMode Manager.accepted].
  rewrite andb_false_r. cbn [andb]. rewrite app_nil_r.
  unfold Manager.wired in Hwired.
  generalize dependent (Manager.audioCapture m). intros c Hwired.
  destruct (stopRecording_events c) as (Hev & Hheld & _).
  pose proof (stopRecording_trace c) as Htrace.
  assert (audioBuffer (snd (stopRecording c)) = []) as Hempty.
  { rewrite stopRecording_eq.
    destruct (audioBuffer c) as [ | chunk rest ] eqn:Hbuf; fields; auto.
    rewrite Hwired. reflexivity. }
  generalize dependent (snd (stopRecording c)). intros c1 Hev Hheld Htrace Hempty.
  assert (flush_returns c1) as Hflush.
  { unfold flush_returns. rewrite Hempty. exact I. }
  destruct (cleanup_all_or_nothing_aux c1 Hflush) as (Hret & Hrel & Hnone).
  pose proof (cleanup_events c1) as Hclean. rewrite Hret in Hclean.
  destruct (stopRecording_events c1) as (Hev1 & _). rewrite Hempty in Hev1.
  rewrite Hev1, Hheld in Hclean. cbn [app] in Hclean.
  pose proof (cleanup_trace c1) as Hfull. rewrite Hclean, Htrace, Hev in Hfull.
  destruct (cleanup c1) as [out c2]. cbn [fst snd Manager.audioCapture Manager.accepted] in *.
  rewrite Hfull, !releases_app, !segments_app, releases_map, segments_map_Released.
  rewrite app_nil_r.
  repeat split; auto; try (destruct (audioBuffer c); cbn; rewrite ?app_nil_r; reflexivity).
Qed.

Lemma manager_cleanup_releases_the_device_witness :
  let m := Manager.frames log10_ref [loud] Manager.session in
  fst (Manager.cleanup m) = Returned tt
  /\ held (Manager.audioCapture m) = [Processor; Analyser; Microphone; AudioContext; Stream]
  /\ held (Manager.audioCapture (snd (Manager.cleanup m))) = []
  /\ Manager.accepted (snd (Manager.cleanup m)) = [].
Proof.
  intro m.
  destruct (manager_cleanup_releases_the_device m) as (Hret & Hnone & _ & _ & Hsame).
  - reflexivity.
  - repeat split; auto; rewrite ?Hsame; vm_compute; reflexivity.
Defined.

(** * The audio level *)

Lemma binary_round_aux_sign (s : bool) (m e : Z) (l : location) :
  match binary_round_aux prec emax s m e l with
  | S754_zero s' | S754_infinity s' | S754_finite s' _ _ => s' = s
  | S754_nan => True
  end.
Proof.
  unfold binary_round_aux.
  destruct (shr_fexp prec emax m e l) as [mrs' e'].
  destruct (shr_fexp prec emax _ e' loc_Exact) as [mrs'' e''].
  destruct (shr_m mrs''); [ reflexivity | | exact I ].
  destruct (e'' <=? emax - prec)%Z; reflexivity.
Qed.

Lemma binary_round_sign (s : bool) (m : positive) (e : Z) :
  match binary_round prec emax s m e with
  | S754_zero s' | S754_infinity s' | S754_finite s' _ _ => s' = s
  | S754_nan => True
  end.
Proof.
  unfold binary_round. destruct (shl_align m e _) as [mz ez].
  apply binary_round_aux_sign.
Qed.

Ltac sign_of H :=
  match type of H with
  | match ?x with _ => _ end => destruct x as [ [ | ] | [ | ] | | [ | ] ? ? ];
                                 try discriminate H; try reflexivity
  end.

Lemma notNegative_add (a b : float) :
  notNegative a = true -> notNegative b = true -> notNegative (a + b) = true.
Proof.
  unfold notNegative. rewrite add_spec. unfold SF64add, SFadd.
  destruct (Prim2SF a) as [ [ | ] | [ | ] | | [ | ] ma ea ]; try discriminate;
    destruct (Prim2SF b) as [ [ | ] | [ | ] | | [ | ] mb eb ]; try discriminate;
    intros _ _; try reflexivity.
  cbn [cond_Zopp Z.add binary_normalize].
  pose proof (binary_round_sign false
                (fst (shl_align ma ea (Z.min ea eb)) + fst (shl_align mb eb (Z.min ea eb)))
                (Z.min ea eb)) as H.
  sign_of H.
Qed.

Lemma notNegative_abs (x : float) : notNegative (abs x) = true.
Proof.
  unfold notNegative. rewrite abs_spec.
  destruct (Prim2SF x) as [ [ | ] | [ | ] | | [ | ] m e ]; reflexivity.
Qed.

Lemma notNegative_of_length (n : nat) : notNegative (of_length n) = true.
Proof.
  unfold notNegative, of_length. rewrite of_uint63_spec.
  pose proof (Uint63.to_Z_bounded (Uint63.of_Z (Z.of_nat n))) as Hpos.
  destruct (Uint63.to_Z (Uint63.of_Z (Z.of_nat n))) as [ | p | p ];
    [ reflexivity | | lia ].
  cbn [binary_normalize].
  pose proof (binary_round_sign false p 0) as H. sign_of H.
Qed.

Lemma notNegative_div (a b : float) :
  notNegative a = true -> notNegative b = true -> notNegative (a / b) = true.
Proof.
  unfold notNegative. rewrite div_spec. unfold SF64div, SFdiv.
  destruct (Prim2SF a) as [ [ | ] | [ | ] | | [ | ] ma ea ]; try discriminate;
    destruct (Prim2SF b) as [ [ | ] | [ | ] | | [ | ] mb eb ]; try discriminate;
    intros _ _; try reflexivity.
  destruct (SFdiv_core_binary prec emax (Z.pos ma) ea (Z.pos mb) eb) as [ [mz ez] lz ].
  pose proof (binary_round_aux_sign (xorb false false) mz ez lz) as H. sign_of H.
Qed.

Lemma notNegative_mul (a b : float) :
  notNegative a = true -> notNegative b = true -> notNegative (a * b) = true.
Proof.
  unfold notNegative. rewrite mul_spec. unfold SF64mul, SFmul.
  destruct (Prim2SF a) as [ [ | ] | [ | ] | | [ | ] ma ea ]; try discriminate;
    destruct (Prim2SF b) as [ [ | ] | [ | ] | | [ | ] mb eb ]; try discriminate;
    intros _ _; try reflexivity.
  pose proof (binary_round_aux_sign (xorb false false) (Z.pos (ma * mb)) (ea + eb)
                loc_Exact) as H.
  sign_of H.
Qed.

Lemma notNegative_zero_leb (x : float) :
  notNegative x = true -> is_nan x = false -> (0 <=? x)%float = true.
Proof.
  unfold notNegative. intros Hsign Hnan. apply is_nan_false in Hnan.
  rewrite leb_spec. change (Prim2SF 0) with (S754_zero false).
  destruct (Prim2SF x) as [ [ | ] | [ | ] | | [ | ] m e ];
    try discriminate; try congruence; reflexivity.
Qed.

Lemma ltb_irrefl (x : float) : (x <? x)%float = false.
Proof.
  rewrite ltb_spec. unfold SFltb.
  pose proof (SFcompare_antisym (Prim2SF x) (Prim2SF x)) as H.
  destruct (SFcompare (Prim2SF x) (Prim2SF x)) as [ [ | | ] | ];
    try reflexivity; discriminate.
Qed.

(** [Math.min(a, b)] is one of its arguments or NaN, and never above [b]. *)
Lemma Math_min_cases (a b : float) :
  is_nan (Math_min a b) = false ->
  (Math_min a b = a \/ Math_min a b = b)
  /\ (Math_min a b <=? b)%float = true.
Proof.
  unfold Math_min.
  destruct (is_nan a) eqn:Ha; [ cbn; discriminate | ].
  destruct (is_nan b) eqn:Hb; [ cbn; discriminate | ]. cbn [orb].
  intros _.
  assert ((b <=? b)%float = true) as Hrefl
    by (apply not_ltb_leb; auto using ltb_irrefl).
  destruct (a <? b)%float eqn:Hlt; [ split; [ auto | apply ltb_leb, Hlt ] | ].
  destruct (b <? a)%float eqn:Hgt; [ split; auto | ].
  destruct (get_sign a); [ split; [ auto | apply not_ltb_leb; auto ] | split; auto ].
Qed.

Lemma sum_abs_notNegative (data : Float32Array) (acc : float) :
  notNegative acc = true ->
  notNegative (fold_left (fun sum x => sum + abs x)%float data acc) = true.
Proof.
  revert acc. induction data as [ | x data IH ]; intros acc Hacc; cbn [fold_left].
  - exact Hacc.
  - apply IH, notNegative_add; [ exact Hacc | apply notNegative_abs ].
Qed.

(** The audio level handed to [onAudioLevel] is a number between 0 and 100
    whenever it is a number; the alternative is NaN (the level of an empty
    frame, for one). *)
Theorem audio_level_in_range (data : Float32Array) :
  is_nan (calculateAudioLevel data) = false ->
  (0 <=? calculateAudioLevel data)%float = true
  /\ (calculateAudioLevel data <=? 100)%float = true.
Proof.
  intro Hnumber. unfold calculateAudioLevel in *. cbv zeta in *.
  destruct (Math_min_cases _ _ Hnumber) as (Hcases & Hhigh).
  split; [ | exact Hhigh ].
  apply notNegative_zero_leb; [ | exact Hnumber ].
  destruct Hcases as [ -> | -> ]; [ | reflexivity ].
  apply notNegative_mul; [ | reflexivity ].
  apply notNegative_div; [ | apply notNegative_of_length ].
  apply sum_abs_notNegative. reflexivity.
Qed.

Lemma audio_level_in_range_witness :
  calculateAudioLevel [0.25; -0.75; 2; -3]%float = 100%float
  /\ is_nan (calculateAudioLevel []) = true
  /\ (0 <=? calculateAudioLevel loud)%float = true
  /\ (calculateAudioLevel loud <=? 100)%float = true.
Proof.
  split; [ vm_compute; reflexivity | ]. split; [ vm_compute; reflexivity | ].
  apply (audio_level_in_range loud). vm_compute. reflexivity.
Defined.
